(** * AccessToken: token validation, resolution and request lookup

    A shallow embedding of [common/models/access-token.js] (loopback's
    AccessToken model) and the properties of its token lifecycle.

    Modelling conventions.
    - JavaScript numbers are exact rationals plus [NaN]; rounding of
      double-precision arithmetic and the infinities are not modelled.
    - JavaScript strings are Rocq strings (sequences of 8-bit characters),
      so text is ASCII/Latin-1; [String.length] is the [.length] of the code.
    - Objects used as dictionaries ([req.params], [req.body], [req.query],
      [req.signedCookies], the model registry, the token table of the
      store) are [gmap string _]; a missing key reads as [undefined].
    - Asynchrony is a trace: the events of a call are listed in the order
      in which they happen.  The synchronous body runs first, then the
      callbacks queued with [process.nextTick] in FIFO order, then the
      callbacks of store operations. *)

From Stdlib Require Import Ascii String NArith QArith.
From stdpp Require Import gmap strings list.

Local Open Scope string_scope.

(** ** JavaScript values *)

Module Js.

Inductive number :=
| NaN
| Num (q : Q).

(** The values a request dictionary or an option can hold. *)
Inductive value :=
| Undefined
| Null
| Bool (b : bool)
| Number (n : number)
| Str (s : string)
| Object.

Definition Qltb (x y : Q) : bool := negb (Qle_bool y x).

(** [a - b], [a / b] and [a < b], [a >= b] on numbers.  A division by
    zero, an infinity in JavaScript, is outside the model; the code divides
    by 1000 only. *)
Definition sub (a b : number) : number :=
  match a, b with
  | Num x, Num y => Num (x - y)
  | _, _ => NaN
  end.

Definition div (a b : number) : number :=
  match a, b with
  | Num x, Num y => if Qeq_bool y 0 then NaN else Num (x / y)
  | _, _ => NaN
  end.

Definition lt (a b : number) : bool :=
  match a, b with
  | Num x, Num y => Qltb x y
  | _, _ => false
  end.

Definition ge (a b : number) : bool :=
  match a, b with
  | Num x, Num y => Qle_bool y x
  | _, _ => false
  end.

(** [n === k] for a numeric literal [k]. *)
Definition strict_eq (a b : number) : bool :=
  match a, b with
  | Num x, Num y => Qeq_bool x y
  | _, _ => false
  end.

(** ToBoolean on numbers, strings and values. *)
Definition truthy_number (n : number) : bool :=
  match n with
  | NaN => false
  | Num q => negb (Qeq_bool q 0)
  end.

Definition truthy_string (s : string) : bool :=
  match s with
  | EmptyString => false
  | String _ _ => true
  end.

Definition truthy (v : value) : bool :=
  match v with
  | Undefined | Null => false
  | Bool b => b
  | Number n => truthy_number n
  | Str s => truthy_string s
  | Object => true
  end.

(** [typeof v === 'string'], keeping the string. *)
Definition as_string (v : value) : option string :=
  match v with
  | Str s => Some s
  | _ => None
  end.

(** [o[k]] on a dictionary: a missing key reads as [undefined]. *)
Definition get (o : gmap string value) (k : string) : value :=
  default Undefined (o !! k).

End Js.

(** ** Data model *)

Inductive Error :=
| AssertionError (message : string)
| StoreError (message : string)
| HttpError (message : string) (status statusCode : Z) (code : string).

(** The [created] attribute as [validate] looks at it. *)
Inductive Created :=
| CreatedAbsent                    (* undefined, null: falsy *)
| CreatedNotDate                   (* a value without a getTime method *)
| CreatedDate (time : Js.number).  (* created.getTime() returns [time] *)

Record Token := {
  id : option string;              (* None: no id assigned *)
  ttl : option Js.number;          (* None: undefined or null *)
  created : Created;
  principalType : option string;
  userId : option string;
  scopes : list string }.

(** A principal model: what [validate] reads of it. *)
Record Model := {
  modelName : string;
  allowEternalTokens : bool }.     (* truthiness of settings.allowEternalTokens *)

(** What surrounds a call: the model wiring, the clock and the outcome of
    the store operations the persistence layer performs. *)
Record Context := {
  userModel : option Model;        (* relations.user && relations.user.modelTo *)
  registry : gmap string Model;    (* registry.findModel *)
  now : Z;                         (* Date.now(), milliseconds *)
  destroyFailure : option Error;   (* the error destroy reports, if any *)
  findFailure : option Error }.    (* the error findById reports, if any *)

(** Events of a [validate] call. *)
Inductive event :=
| Destroy (tokenId : option string)
| Callback (err : option Error) (isValid : option bool).

(** ** The error monad of a [try] block

    A [try { ... } catch (e) { ... }] body is a computation that either
    throws ([inl e]) or completes ([inr r]). *)

Definition throws (A : Type) : Type := (Error + A)%type.

Definition assert (value : bool) (message : string) : throws unit :=
  if value then inr tt else inl (AssertionError message).

Notation "'try!' c 'in' k" :=
  (match c with inl e => inl e | inr _ => k end)
  (at level 10, c at level 100, k at level 200, only parsing).

(** ** Strings and regular expressions of the request lookup *)

Module JsString.

(** [s.substring(n)] *)
Fixpoint substring_from (n : nat) (s : string) : string :=
  match n, s with
  | O, _ => s
  | S _, EmptyString => EmptyString
  | S m, String _ rest => substring_from m rest
  end.

(** [s.indexOf(p) === 0] *)
Fixpoint starts_with (p s : string) : bool :=
  match p, s with
  | EmptyString, _ => true
  | String _ _, EmptyString => false
  | String a p', String b s' => Ascii.eqb a b && starts_with p' s'
  end.

Definition lower (c : ascii) : ascii :=
  let n := nat_of_ascii c in
  if (65 <=? n)%nat && (n <=? 90)%nat then ascii_of_nat (n + 32) else c.

Fixpoint lowercase (s : string) : string :=
  match s with
  | EmptyString => EmptyString
  | String c rest => String (lower c) (lowercase rest)
  end.

(** [/^Basic /i.test(s)]: the pattern's characters are ASCII, and a
    character matches one of them when it is the same letter in either case. *)
Definition test_basic (s : string) : bool :=
  starts_with "basic " (lowercase s).

(** The line terminators [.] does not match.  U+2028 and U+2029 lie
    outside 8-bit text. *)
Definition is_line_terminator (c : ascii) : bool :=
  let n := nat_of_ascii c in
  (n =? 10)%nat || (n =? 13)%nat.

Fixpoint has_line_terminator (s : string) : bool :=
  match s with
  | EmptyString => false
  | String c rest => is_line_terminator c || has_line_terminator rest
  end.

(** The text before and after the first colon. *)
Fixpoint split_colon (s : string) : option (string * string) :=
  match s with
  | EmptyString => None
  | String c rest =>
      if Ascii.eqb c ":" then Some (EmptyString, rest)
      else
        match split_colon rest with
        | Some (before, after) => Some (String c before, after)
        | None => None
        end
  end.

(** The [exec] of the user:pass pattern (anchored at both ends: a group
    of non-colon characters, a colon, a group of any characters), giving
    [(parts[1], parts[2])].  Group 1 cannot cross a colon, so the only
    split is at the first colon; group 2 must then take the whole rest,
    and the dot matches every character but a line terminator. *)
Definition exec_user_pass (s : string) : option (string * string) :=
  match split_colon s with
  | Some (user, pass) =>
      if has_line_terminator pass then None else Some (user, pass)
  | None => None
  end.

End JsString.

(** ** Base64

    [new Buffer(s, 'base64').toString('utf8')] belongs to the platform; the
    request lookup is parameterised by it.  [Base64.decode] is the RFC 4648
    decoding on ASCII payloads, used to run the lookup on concrete
    requests: characters outside the alphabet are skipped, [=] ends the
    input, and both the standard and the URL-safe alphabet are read. *)

Module Base64.

Definition sextet (c : ascii) : option N :=
  let n := N_of_ascii c in
  if (65 <=? n)%N && (n <=? 90)%N then Some (n - 65)%N
  else if (97 <=? n)%N && (n <=? 122)%N then Some (n - 71)%N
  else if (48 <=? n)%N && (n <=? 57)%N then Some (n + 4)%N
  else if (n =? 43)%N || (n =? 45)%N then Some 62%N
  else if (n =? 47)%N || (n =? 95)%N then Some 63%N
  else None.

Fixpoint sextets (s : string) : list N :=
  match s with
  | EmptyString => []
  | String c rest =>
      if Ascii.eqb c "=" then []
      else
        match sextet c with
        | Some v => v :: sextets rest
        | None => sextets rest
        end
  end.

Definition byte (n : N) : ascii := ascii_of_N (n mod 256).

Fixpoint octets (l : list N) : string :=
  match l with
  | a :: b :: c :: d :: rest =>
      let w := (a * 262144 + b * 4096 + c * 64 + d)%N in
      String (byte (w / 65536)) (String (byte (w / 256)) (String (byte w) (octets rest)))
  | [a; b; c] =>
      let w := (a * 262144 + b * 4096 + c * 64)%N in
      String (byte (w / 65536)) (String (byte (w / 256)) EmptyString)
  | [a; b] =>
      let w := (a * 262144 + b * 4096)%N in
      String (byte (w / 65536)) EmptyString
  | _ => EmptyString
  end.

Definition decode (s : string) : string := octets (sextets s).

End Base64.

(** ** AccessToken.prototype.validate *)

Module AccessToken.

(** [this.created && typeof this.created.getTime === 'function'] *)
Definition created_is_date (c : Created) : bool :=
  match c with
  | CreatedDate _ => true
  | CreatedAbsent | CreatedNotDate => false
  end.

(** [this.created.getTime()], reached only past the first assertion. *)
Definition getTime (c : Created) : Js.number :=
  match c with
  | CreatedDate t => t
  | CreatedAbsent | CreatedNotDate => Js.NaN
  end.

(** [this.ttl !== 0], [this.ttl] as a condition, [this.ttl >= k]. *)
Definition ttl_not_zero (t : option Js.number) : bool :=
  match t with
  | Some n => negb (Js.strict_eq n (Js.Num 0))
  | None => true
  end.

Definition ttl_exists (t : option Js.number) : bool :=
  match t with
  | Some n => Js.truthy_number n
  | None => false
  end.

(** ToNumber of the attribute; [None] is unreachable where this is used,
    the assertion [this.ttl] has thrown before. *)
Definition ttl_number (t : option Js.number) : Js.number :=
  default Js.NaN t.

(** [!!(User && User.settings.allowEternalTokens)] for the model the
    [user] relation points to. *)
Definition eternalTokensAllowed (cx : Context) : bool :=
  match userModel cx with
  | Some User => allowEternalTokens User
  | None => false
  end.

(** [registry.findModel(name)] *)
Definition findModel (cx : Context) (name : string) : option Model :=
  registry cx !! name.

(** The branch [if (this.principalType) { User = findModel(..); if (!User) ..}]
    is taken to its inner [nextTick]. *)
Definition principal_unresolved (cx : Context) (this : Token) : bool :=
  match principalType this with
  | Some name =>
      Js.truthy_string name &&
      match findModel cx name with Some _ => false | None => true end
  | None => false
  end.

(** [this.destroy(cb)]: the store deletes the record with the token's id
    unless it reports a failure. *)
Definition destroy (cx : Context) (this : Token) (store : gmap string Token)
  : gmap string Token * option Error :=
  match destroyFailure cx with
  | Some e => (store, Some e)
  | None =>
      match id this with
      | Some i => (delete i store, None)
      | None => (store, None)
      end
  end.

Definition elapsedSeconds (cx : Context) (this : Token) : Js.number :=
  let now := Js.Num (inject_Z (now cx)) in
  let created := getTime (created this) in
  Js.div (Js.sub now created) (Js.Num 1000).

Definition isValid (cx : Context) (this : Token) : bool :=
  let secondsToLive := ttl_number (ttl this) in
  let isEternalToken := Js.strict_eq secondsToLive (Js.Num (-1)) in
  if isEternalToken then eternalTokensAllowed cx
  else Js.lt (elapsedSeconds cx this) secondsToLive.

(** The assertions that open the [try] block. *)
Definition validate_asserts (cx : Context) (this : Token) : throws unit :=
  try! assert (created_is_date (created this))
         "token.created must be a valid Date" in
  try! assert (ttl_not_zero (ttl this)) "token.ttl must be not be 0" in
  try! assert (ttl_exists (ttl this)) "token.ttl must exist" in
  if negb (eternalTokensAllowed cx)
  then assert (Js.ge (ttl_number (ttl this)) (Js.Num (-1)))
         "token.ttl must be >= -1"
  else inr tt.

(** The callbacks the principal lookup queues with [process.nextTick]. *)
Definition principal_ticks (cx : Context) (this : Token) : list event :=
  if principal_unresolved cx this then [Callback None (Some false)] else [].

(** The body of the [try] block.  The callback queued for an unresolved
    principal is followed by no [return]: the body goes on. *)
Definition validate_try (cx : Context) (store : gmap string Token) (this : Token)
  : throws (gmap string Token * list event) :=
  try! validate_asserts cx this in
  let ticks := principal_ticks cx this in
  if isValid cx this then
    inr (store, (ticks ++ [Callback None (Some true)])%list)
  else
    let '(store', err) := destroy cx this store in
    inr (store', (Destroy (id this) :: ticks ++ [Callback err (Some false)])%list).

Definition validate (cx : Context) (store : gmap string Token) (this : Token)
  : gmap string Token * list event :=
  match validate_try cx store this with
  | inr r => r
  | inl e => (store, [Callback (Some e) None])
  end.

(** ** AccessToken.resolve *)

(** A call [cb(err, token)] of the callback of [resolve]; [cb()] is
    [ResolveCallback None None]. *)
Inductive resolve_call :=
| ResolveCallback (err : option Error) (token : option Token).

(** [this.findById(id, ...)] on the token table. *)
Definition findById (cx : Context) (store : gmap string Token) (tokenId : string)
  : throws (option Token) :=
  match findFailure cx with
  | Some e => inl e
  | None => inr (store !! tokenId)
  end.

Definition invalid_token_error : Error :=
  HttpError "Invalid Access Token" 401 401 "INVALID_TOKEN".

(** The function [resolve] hands to [token.validate]. *)
Definition on_validate (token : Token) (err : option Error) (isValid : option bool)
  : resolve_call :=
  match err with
  | Some e => ResolveCallback (Some e) None
  | None =>
      match isValid with
      | Some true => ResolveCallback None (Some token)
      | Some false | None => ResolveCallback (Some invalid_token_error) None
      end
  end.

Definition resolve_events (token : Token) (trace : list event) : list resolve_call :=
  omap (fun ev =>
          match ev with
          | Callback err isValid => Some (on_validate token err isValid)
          | Destroy _ => None
          end) trace.

Definition resolve (cx : Context) (store : gmap string Token) (tokenId : string)
  : gmap string Token * list resolve_call :=
  match findById cx store tokenId with
  | inl err => (store, [ResolveCallback (Some err) None])
  | inr (Some token) =>
      let '(store', trace) := validate cx store token in
      (store', resolve_events token trace)
  | inr None => (store, [ResolveCallback None None])
  end.

(** ** The [before save] hook *)

Definition DEFAULT_TOKEN_LEN : nat := 64.

(** The model settings and the random source [uid2] the hook draws on:
    [uid len] is what [uid(len, cb)] hands to its callback. *)
Record IdSource := {
  accessTokenIdLength : option nat;     (* None: not configured *)
  uid : nat -> throws string }.

(** The operation context of a hook: [ctx.instance] for a full save,
    [ctx.data] for a partial update. *)
Record SaveContext := {
  instance : option Token;
  data : option (gmap string Js.value) }.

(** A call [next(err)] of the hook's continuation. *)
Inductive next_call :=
| Next (err : option Error).

(** [ctx.instance.id] as a condition. *)
Definition id_truthy (i : option string) : bool :=
  match i with
  | Some s => Js.truthy_string s
  | None => false
  end.

(** [settings.accessTokenIdLength || DEFAULT_TOKEN_LEN] *)
Definition tokenIdLength (src : IdSource) : nat :=
  match accessTokenIdLength src with
  | Some 0 | None => DEFAULT_TOKEN_LEN
  | Some n => n
  end.

Definition createAccessTokenId (src : IdSource) : throws string :=
  uid src (tokenIdLength src).

(** [ctx.instance.id = id] *)
Definition set_id (inst : Token) (newId : string) : Token :=
  {| id := Some newId; ttl := ttl inst; created := created inst;
     principalType := principalType inst; userId := userId inst;
     scopes := scopes inst |}.

Definition before_save (src : IdSource) (ctx : SaveContext)
  : SaveContext * next_call :=
  match instance ctx with
  | None => (ctx, Next None)
  | Some inst =>
      if id_truthy (id inst) then (ctx, Next None)
      else
        match createAccessTokenId src with
        | inl err => (ctx, Next (Some err))
        | inr newId =>
            ({| instance := Some (set_id inst newId); data := data ctx |},
             Next None)
        end
  end.

(** ** AccessToken.getIdForRequest *)

Record Request := {
  req_params : option (gmap string Js.value);         (* req.params *)
  req_body : option (gmap string Js.value);           (* req.body *)
  req_query : option (gmap string Js.value);          (* req.query *)
  req_header : string -> Js.value;                    (* req.header(name) *)
  req_signedCookies : option (gmap string Js.value) }.

Record Options := {
  opt_params : option (list string);
  opt_headers : option (list string);
  opt_cookies : option (list string);
  searchDefaultTokenKeys : Js.value;
  bearerTokenBase64Encoded : Js.value }.

(** [{}] *)
Definition no_options : Options :=
  {| opt_params := None; opt_headers := None; opt_cookies := None;
     searchDefaultTokenKeys := Js.Undefined;
     bearerTokenBase64Encoded := Js.Undefined |}.

(** [v !== false] and [v !== undefined] *)
Definition is_not_false (v : Js.value) : bool :=
  match v with
  | Js.Bool false => false
  | _ => true
  end.

Definition is_defined (v : Js.value) : bool :=
  match v with
  | Js.Undefined => false
  | _ => true
  end.

(** [o && o[k] !== undefined] *)
Definition has_defined (o : option (gmap string Js.value)) (k : string) : bool :=
  match o with
  | Some dict => is_defined (Js.get dict k)
  | None => false
  end.

(** [o[k]], read after [has_defined]. *)
Definition read (o : option (gmap string Js.value)) (k : string) : Js.value :=
  match o with
  | Some dict => Js.get dict k
  | None => Js.Undefined
  end.

(** The replacement for [req.param(name)]. *)
Definition param_value (req : Request) (param : string) : Js.value :=
  if has_defined (req_params req) param then read (req_params req) param
  else if has_defined (req_body req) param then read (req_body req) param
  else if has_defined (req_query req) param then read (req_query req) param
  else Js.Undefined.

(** The first loop. *)
Fixpoint search_params (req : Request) (params : list string) : option string :=
  match params with
  | [] => None
  | param :: rest =>
      match Js.as_string (param_value req param) with
      | Some found => Some found
      | None => search_params req rest
      end
  end.

Section Lookup.

(** [s => new Buffer(s, 'base64').toString('utf8')] *)
Variable base64_utf8 : string -> string.

(** What the second loop makes of a non-empty header value. *)
Definition header_token (options : Options) (value : string) : string :=
  if JsString.starts_with "Bearer " value then
    let rest := JsString.substring_from 7 value in
    if Js.truthy (bearerTokenBase64Encoded options) then base64_utf8 rest
    else rest
  else if JsString.test_basic value then
    let decoded := base64_utf8 (JsString.substring_from 6 value) in
    match JsString.exec_user_pass decoded with
    | Some (part1, part2) =>
        if (String.length part1 <? String.length part2)%nat then part2 else part1
    | None => decoded
    end
  else value.

(** The second loop. *)
Fixpoint search_headers (req : Request) (options : Options) (headers : list string)
  : option string :=
  match headers with
  | [] => None
  | name :: rest =>
      match Js.as_string (req_header req name) with
      | Some value =>
          if Js.truthy_string value then Some (header_token options value)
          else search_headers req options rest
      | None => search_headers req options rest
      end
  end.

(** The third loop, over a cookie jar. *)
Fixpoint search_jar (jar : gmap string Js.value) (cookies : list string)
  : option string :=
  match cookies with
  | [] => None
  | name :: rest =>
      match Js.as_string (Js.get jar name) with
      | Some found => Some found
      | None => search_jar jar rest
      end
  end.

Definition search_cookies (req : Request) (cookies : list string) : option string :=
  match req_signedCookies req with
  | Some jar => search_jar jar cookies
  | None => None
  end.

(** The three key lists after the defaults are appended. *)
Definition param_names (options : Options) : list string :=
  let params := default [] (opt_params options) in
  if is_not_false (searchDefaultTokenKeys options)
  then (params ++ ["access_token"])%list else params.

Definition header_names (options : Options) : list string :=
  let headers := default [] (opt_headers options) in
  if is_not_false (searchDefaultTokenKeys options)
  then (headers ++ ["X-Access-Token"; "authorization"])%list else headers.

Definition cookie_names (options : Options) : list string :=
  let cookies := default [] (opt_cookies options) in
  if is_not_false (searchDefaultTokenKeys options)
  then (cookies ++ ["access_token"; "authorization"])%list else cookies.

(** [None] for the [options] argument is a call without it; the result
    [None] is [null]. *)
Definition getIdForRequest (req : Request) (options : option Options)
  : option string :=
  let options := default no_options options in
  match search_params req (param_names options) with
  | Some found => Some found
  | None =>
      match search_headers req options (header_names options) with
      | Some found => Some found
      | None => search_cookies req (cookie_names options)
      end
  end.

(** [AccessToken.findForRequest].  A call [findForRequest(req, cb)] is a
    call with [{}] for the options, the same as a call without them;
    [process.nextTick(cb)] calls [cb()].  [if (id)] fails on [null] and on
    the empty string. *)
Definition findForRequest (cx : Context) (store : gmap string Token)
    (req : Request) (options : option Options)
  : gmap string Token * list resolve_call :=
  match getIdForRequest req options with
  | Some found =>
      if Js.truthy_string found then resolve cx store found
      else (store, [ResolveCallback None None])
  | None => (store, [ResolveCallback None None])
  end.

End Lookup.

End AccessToken.

(** ** The vocabulary of the specification *)

Module Spec.

Import AccessToken.

(** A hard validation error: the callback is called once, with an
    assertion error and no [isValid] at all. *)
Definition fails_closed (trace : list event) : bool :=
  match trace with
  | [Callback (Some (AssertionError _)) None] => true
  | _ => false
  end.

(** The callback calls of a trace, in order. *)
Definition callbacks (trace : list event) : list (option Error * option bool) :=
  omap (fun ev =>
          match ev with
          | Callback err isValid => Some (err, isValid)
          | Destroy _ => None
          end) trace.

(** [ttl] is absent: undefined, null, or not a number at all. *)
Definition ttl_absent (t : option Js.number) : bool :=
  match t with
  | None | Some Js.NaN => true
  | Some (Js.Num _) => false
  end.

(** [ttl] is exactly 0. *)
Definition ttl_zero (t : option Js.number) : bool :=
  match t with
  | Some (Js.Num q) => Qeq_bool q 0
  | _ => false
  end.

(** [ttl] is a number strictly below [k]. *)
Definition ttl_below (t : option Js.number) (k : Q) : bool :=
  match t with
  | Some (Js.Num q) => Js.Qltb q k
  | _ => false
  end.

(** The states the first three assertions of [validate] refuse. *)
Definition refused (this : Token) : bool :=
  negb (created_is_date (created this))
  || ttl_absent (ttl this)
  || ttl_zero (ttl this).

(** A valid Date: a Date object that holds a time. *)
Definition valid_date (c : Created) : bool :=
  match c with
  | CreatedDate (Js.Num _) => true
  | CreatedDate Js.NaN | CreatedAbsent | CreatedNotDate => false
  end.

(** The malformed states as section 4.1 lists them: [created] is not a
    valid Date, or [ttl] is absent, or [ttl] is exactly 0. *)
Definition malformed (this : Token) : bool :=
  negb (valid_date (created this))
  || ttl_absent (ttl this)
  || ttl_zero (ttl this).

(** The token names no principal type, or one the registry knows. *)
Definition principal_known (cx : Context) (this : Token) : Prop :=
  match principalType this with
  | None => True
  | Some name => name = "" \/ exists model, registry cx !! name = Some model
  end.

(** The store once a token has been destroyed: without the record of the
    token's id, unless the store reports a failure. *)
Definition destroyed (cx : Context) (this : Token) (store : gmap string Token)
  : gmap string Token :=
  match destroyFailure cx, id this with
  | None, Some i => delete i store
  | _, _ => store
  end.

(** What a resolved token's caller is told for one report of [validate],
    in the words of section 4.1. *)
Definition reply (token : Token) (report : option Error * option bool)
  : resolve_call :=
  match report with
  | (Some e, _) => ResolveCallback (Some e) None
  | (None, Some true) => ResolveCallback None (Some token)
  | (None, _) =>
      ResolveCallback
        (Some (HttpError "Invalid Access Token" 401 401 "INVALID_TOKEN")) None
  end.

(** The Basic credentials in the words of section 4.1: the decoded text
    is split on its first colon, and the longer of the two parts is the
    token. *)
Definition longer_part (decoded : string) : string :=
  match JsString.split_colon decoded with
  | Some (user, pass) =>
      if (String.length user <? String.length pass)%nat then pass else user
  | None => decoded
  end.

(** The same surroundings at another reading of the clock. *)
Definition at_time (cx : Context) (time : Z) : Context :=
  {| userModel := userModel cx; registry := registry cx; now := time;
     destroyFailure := destroyFailure cx; findFailure := findFailure cx |}.

(** Every record of the token table is stored under its own id. *)
Definition keyed_by_id (store : gmap string Token) : Prop :=
  forall i token, store !! i = Some token -> id token = Some i.

(** How often a trace calls the callback. *)
Definition calls (trace : list event) : nat := length (callbacks trace).

Section Search.

Variable base64_utf8 : string -> string.

(** The request lookup in the words of section 4.1: every configured
    parameter name is looked up in the route parameters, the body and the
    query, in that order; then the headers, read as the second loop reads
    them; then the signed cookies.  The result is the first string found. *)
Definition header_candidate (req : Request) (options : Options) (name : string)
  : option string :=
  match Js.as_string (req_header req name) with
  | Some value =>
      if Js.truthy_string value
      then Some (header_token base64_utf8 options value) else None
  | None => None
  end.

Definition cookie_candidate (req : Request) (name : string) : option string :=
  match req_signedCookies req with
  | Some jar => Js.as_string (Js.get jar name)
  | None => None
  end.

Definition param_candidates_every_source (req : Request) (name : string)
  : list (option string) :=
  [Js.as_string (read (req_params req) name);
   Js.as_string (read (req_body req) name);
   Js.as_string (read (req_query req) name)].

Definition first_match (candidates : list (option string)) : option string :=
  head (omap (fun c => c) candidates).

Definition getIdForRequest_every_source (req : Request) (options : option Options)
  : option string :=
  let options := default no_options options in
  first_match
    (flat_map (param_candidates_every_source req) (param_names options)
     ++ map (header_candidate req options) (header_names options)
     ++ map (cookie_candidate req) (cookie_names options))%list.

(** The same search with one candidate per parameter name: the first
    defined value among the three sources. *)
Definition first_defined (values : list Js.value) : Js.value :=
  default Js.Undefined (List.find is_defined values).

Definition param_candidate (req : Request) (name : string) : option string :=
  Js.as_string
    (first_defined [read (req_params req) name;
                    read (req_body req) name;
                    read (req_query req) name]).

Definition getIdForRequest_first_defined (req : Request) (options : option Options)
  : option string :=
  let options := default no_options options in
  first_match
    (map (param_candidate req) (param_names options)
     ++ map (header_candidate req options) (header_names options)
     ++ map (cookie_candidate req) (cookie_names options))%list.

End Search.

End Spec.

(** ** Sample tokens, contexts and requests *)

Module Sample.

Import AccessToken.

Definition NoUser : Context :=
  {| userModel := None; registry := ∅; now := 5000;
     destroyFailure := None; findFailure := None |}.

Definition User : Model := {| modelName := "User"; allowEternalTokens := true |}.

Definition Eternal : Context :=
  {| userModel := Some User; registry := {[ "User" := User ]}; now := 5000;
     destroyFailure := None; findFailure := None |}.

(** Created at 1000 ms; at 5000 ms, 4 seconds have elapsed. *)
Definition token (i : string) (seconds : Q) (principal : option string) : Token :=
  {| id := Some i; ttl := Some (Js.Num seconds);
     created := CreatedDate (Js.Num 1000);
     principalType := principal; userId := Some "u1"; scopes := [] |}.

Definition fresh : Token := token "t-fresh" 10 None.
Definition expired : Token := token "t-expired" 4 None.
Definition negative : Token := token "t-negative" (-2) None.
Definition zero : Token := token "t-zero" 0 None.
Definition ghost : Token := token "t-ghost" 10 (Some "Ghost").

Definition store : gmap string Token :=
  {[ "t-fresh" := fresh; "t-expired" := expired; "t-ghost" := ghost ]}.

Definition headers (name value : string) : string -> Js.value :=
  fun asked => if String.eqb asked name then Js.Str value else Js.Undefined.

Definition request (header : string -> Js.value) : Request :=
  {| req_params := None; req_body := None; req_query := None;
     req_header := header; req_signedCookies := None |}.

(** A JSON body with a numeric [access_token] and a query string with a
    textual one. *)
Definition shadowed : Request :=
  {| req_params := Some ∅;
     req_body := Some {[ "access_token" := Js.Number (Js.Num 123) ]};
     req_query := Some {[ "access_token" := Js.Str "abc" ]};
     req_header := fun _ => Js.Undefined;
     req_signedCookies := None |}.

(** [Bearer] followed by the base64 of [token]. *)
Definition bearer : Request := request (headers "authorization" "Bearer dG9rZW4=").

(** [Basic] followed by the base64 of [token:a2b2c3]. *)
Definition basic : Request :=
  request (headers "authorization" "basic dG9rZW46YTJiMmMz").

(** [Basic] followed by the base64 of [a:bb], a line feed and [c]. *)
Definition basic_two_lines : Request :=
  request (headers "authorization" "Basic YTpiYgpj").

Definition with_id (i : option string) : Token :=
  {| id := i; ttl := Some (Js.Num 1209600); created := CreatedDate (Js.Num 1000);
     principalType := None; userId := Some "u1"; scopes := [] |}.

(** [a:bb], a line feed, [c]. *)
Definition two_lines : string := "a:bb" ++ String "010"%char "c".

Definition source : IdSource :=
  {| accessTokenIdLength := None;
     uid := fun len => inr (if (len =? 64)%nat then "generated-64" else "generated") |}.




(** A request with [?access_token=...] and one header. *)
Definition query (token : string) (header : string -> Js.value) : Request :=
  {| req_params := Some ∅; req_body := None;
     req_query := Some {[ "access_token" := Js.Str token ]};
     req_header := header; req_signedCookies := None |}.

(** A context in which eternal tokens are allowed, one hour later. *)
Definition Later : Context := Spec.at_time NoUser 3605000.

(** A Date object that holds no time. *)
Definition undated : Token :=
  {| id := Some "t-undated"; ttl := Some (Js.Num 10);
     created := CreatedDate Js.NaN;
     principalType := None; userId := Some "u1"; scopes := [] |}.

Definition below : Token := token "t-below" (-5) None.

(** Options that configure no key and switch the default keys off. *)
Definition no_keys : Options :=
  {| opt_params := None; opt_headers := Some []; opt_cookies := None;
     searchDefaultTokenKeys := Js.Bool false;
     bearerTokenBase64Encoded := Js.Undefined |}.

(** A generator that honours the length it is asked for. *)
Definition letters : IdSource :=
  {| accessTokenIdLength := Some 0;
     uid := fun len => inr (string_of_list_ascii (repeat "x"%char len)) |}.

End Sample.

(** * Properties *)

Import AccessToken.

(** ** Numbers *)

Lemma Qltb_lt (x y : Q) : Js.Qltb x y = true <-> (x < y)%Q.
Proof.
  unfold Js.Qltb. rewrite negb_true_iff. split.
  - intros H. apply Qnot_le_lt. intros Hle.
    apply Qle_bool_iff in Hle. congruence.
  - intros H. destruct (Qle_bool y x) eqn:E; [|reflexivity].
    apply Qle_bool_iff in E. exfalso. eapply Qlt_not_le; eauto.
Qed.

Lemma Qeq_bool_false_of_lt (x y : Q) : (x < y)%Q -> Qeq_bool y x = false.
Proof.
  intros H. destruct (Qeq_bool y x) eqn:E; [|reflexivity].
  apply Qeq_bool_iff in E. rewrite E in H. exfalso. eapply Qlt_irrefl; eauto.
Qed.

Lemma Qeq_bool_false_of_gt (x y : Q) : (y < x)%Q -> Qeq_bool y x = false.
Proof.
  intros H. destruct (Qeq_bool y x) eqn:E; [|reflexivity].
  apply Qeq_bool_iff in E. rewrite E in H. exfalso. eapply Qlt_irrefl; eauto.
Qed.

(** ** The assertions of [validate] *)

Lemma assert_cases (value : bool) (message : string) :
  assert value message = (if value then inr tt else inl (AssertionError message)).
Proof. reflexivity. Qed.

(** Whatever the assertions throw is an assertion error. *)
Lemma validate_asserts_error cx this e :
  validate_asserts cx this = inl e -> exists message, e = AssertionError message.
Proof.
  unfold validate_asserts, assert. intros H.
  repeat case_match; simplify_eq; eauto.
Qed.

(** The assertions pass exactly on the well-formed states. *)
Lemma validate_asserts_pass cx this :
  validate_asserts cx this = inr tt <->
  Spec.refused this = false /\
  (negb (eternalTokensAllowed cx) && Spec.ttl_below (ttl this) (-1)) = false.
Proof.
  unfold validate_asserts, assert, Spec.refused, Spec.ttl_below,
    Spec.ttl_absent, Spec.ttl_zero, ttl_not_zero, ttl_exists, ttl_number,
    Js.truthy_number, Js.strict_eq, Js.ge, Js.Qltb.
  destruct (created this); simpl; try (split; [discriminate | intros [? _]; discriminate]).
  destruct (ttl this) as [[|q]|]; simpl;
    try (split; [discriminate | intros [? _]; discriminate]).
  destruct (Qeq_bool q 0); simpl;
    try (split; [discriminate | intros [? _]; discriminate]).
  destruct (eternalTokensAllowed cx); simpl; [tauto|].
  destruct (Qle_bool (-1) q); simpl; [tauto|].
  split; [discriminate | intros [_ ?]; discriminate].
Qed.

(** Past the assertions, [validate] is the rest of the body. *)
Lemma validate_past_asserts cx store this :
  validate_asserts cx this = inr tt ->
  validate cx store this =
    if isValid cx this
    then (store, (principal_ticks cx this ++ [Callback None (Some true)])%list)
    else ((destroy cx this store).1,
          (Destroy (id this) :: principal_ticks cx this
             ++ [Callback (destroy cx this store).2 (Some false)])%list).
Proof.
  intros H. unfold validate, validate_try. rewrite H.
  destruct (isValid cx this); [reflexivity|].
  destruct (destroy cx this store); reflexivity.
Qed.

Lemma validate_thrown cx store this e :
  validate_asserts cx this = inl e ->
  validate cx store this = (store, [Callback (Some e) None]).
Proof.
  intros H. unfold validate, validate_try. rewrite H. reflexivity.
Qed.

Lemma principal_ticks_cases cx this :
  principal_ticks cx this = [] \/
  principal_ticks cx this = [Callback None (Some false)].
Proof.
  unfold principal_ticks. destruct (principal_unresolved cx this); auto.
Qed.

(** When [validate] fails closed is decided by the token and the setting
    for eternal tokens alone. *)
Lemma fails_closed_validate cx store this :
  Spec.fails_closed (validate cx store this).2 =
  Spec.refused this
  || (negb (eternalTokensAllowed cx) && Spec.ttl_below (ttl this) (-1)).
Proof.
  destruct (validate_asserts cx this) as [e|[]] eqn:E.
  - rewrite (validate_thrown _ _ _ _ E).
    destruct (validate_asserts_error _ _ _ E) as [m ->]. simpl.
    symmetry. apply not_false_iff_true. intros Hf.
    apply orb_false_iff in Hf.
    pose proof (proj2 (validate_asserts_pass cx this) Hf). congruence.
  - rewrite (validate_past_asserts _ _ _ E).
    apply validate_asserts_pass in E as [-> ->].
    destruct (isValid cx this), (principal_ticks_cases cx this) as [-> | ->];
      reflexivity.
Qed.

(** ** Validation of well-formed tokens *)

Lemma destroy_error cx this store :
  (destroy cx this store).2 = destroyFailure cx.
Proof.
  unfold destroy. destruct (destroyFailure cx); [reflexivity|].
  destruct (id this); reflexivity.
Qed.

Lemma destroy_removes cx this store i :
  destroyFailure cx = None -> id this = Some i ->
  (destroy cx this store).1 !! i = None.
Proof.
  intros Hok Hid. unfold destroy. rewrite Hok, Hid. simpl.
  apply lookup_delete_eq.
Qed.

(** With a finite creation time and a positive [ttl] nothing is thrown and
    [isValid] is the comparison of the elapsed seconds with [ttl]. *)
Lemma positive_ttl_asserts cx this t q :
  created this = CreatedDate t -> ttl this = Some (Js.Num q) -> (0 < q)%Q ->
  validate_asserts cx this = inr tt.
Proof.
  intros Hc Ht Hq. apply validate_asserts_pass.
  unfold Spec.refused, Spec.ttl_absent, Spec.ttl_zero, Spec.ttl_below.
  rewrite Hc, Ht. simpl.
  rewrite (Qeq_bool_false_of_lt 0 q Hq). split; [reflexivity|].
  apply andb_false_iff. right.
  destruct (Js.Qltb q (-1)) eqn:E; [|reflexivity].
  apply Qltb_lt in E. exfalso.
  apply (Qlt_irrefl 0). apply (Qlt_trans _ q); [exact Hq|].
  apply (Qlt_trans _ (-1)); [exact E | reflexivity].
Qed.

Lemma positive_ttl_isValid cx this t q :
  created this = CreatedDate (Js.Num t) -> ttl this = Some (Js.Num q) -> (0 < q)%Q ->
  isValid cx this = Js.Qltb ((inject_Z (now cx) - t) / 1000) q.
Proof.
  intros Hc Ht Hq. unfold isValid, elapsedSeconds, ttl_number.
  rewrite Hc, Ht. simpl.
  replace (Qeq_bool q (-1)) with false; [reflexivity|].
  symmetry. apply Qeq_bool_false_of_lt.
  apply (Qlt_trans _ 0); [reflexivity | exact Hq].
Qed.

Lemma in_principal_ticks cx this ev :
  ev ∈ principal_ticks cx this -> ev = Callback None (Some false).
Proof.
  intros Hin. destruct (principal_ticks_cases cx this) as [E | E];
    rewrite E in Hin.
  - apply elem_of_nil in Hin. contradiction.
  - apply list_elem_of_singleton in Hin. exact Hin.
Qed.

Lemma elem_of_snoc {A : Type} (l : list A) (x : A) : x ∈ (l ++ [x])%list.
Proof. apply elem_of_app. right. apply list_elem_of_singleton. reflexivity. Qed.

(** Take a membership in a trace apart, one event at a time. *)
Ltac trace_elem H :=
  repeat match type of H with
         | _ ∈ [] => apply elem_of_nil in H; contradiction
         | _ ∈ _ :: _ => apply elem_of_cons in H as [H|H]
         | _ ∈ (_ ++ _)%list => apply elem_of_app in H as [H|H]
         | _ ∈ principal_ticks _ _ => apply in_principal_ticks in H
         end.

Lemma destroy_store cx this store :
  (destroy cx this store).1 = Spec.destroyed cx this store.
Proof.
  unfold destroy, Spec.destroyed.
  destruct (destroyFailure cx), (id this); reflexivity.
Qed.

(** A principal the registry knows, or none, queues nothing. *)
Lemma principal_known_ticks cx this :
  Spec.principal_known cx this -> principal_ticks cx this = [].
Proof.
  unfold Spec.principal_known, principal_ticks, principal_unresolved, findModel.
  destruct (principalType this) as [name|]; [|reflexivity].
  intros [-> | [model ->]]; [reflexivity|].
  rewrite andb_false_r. reflexivity.
Qed.

(** Past the assertions and with a known principal, the callback is
    called once, with what [isValid] says. *)
Lemma validate_known_principal cx store this :
  validate_asserts cx this = inr tt ->
  Spec.principal_known cx this ->
  validate cx store this =
    if isValid cx this
    then (store, [Callback None (Some true)])
    else (Spec.destroyed cx this store,
          [Destroy (id this); Callback (destroyFailure cx) (Some false)]).
Proof.
  intros E Hp. rewrite (validate_past_asserts _ _ _ E).
  rewrite (principal_known_ticks _ _ Hp), destroy_error, destroy_store.
  reflexivity.
Qed.

(** C1. For every access token whose [created] attribute is a valid Date
    and whose [ttl] is strictly positive (and whose principal type, if it
    names one, is known to the registry), [validate] reports the token
    valid if and only if the seconds elapsed between now and [created] are
    strictly less than [ttl]: then the callback is called once, with
    [(null, true)], and the store is left alone; otherwise, and in
    particular when the elapsed seconds equal [ttl], the token is
    destroyed and the callback is called once, with [isValid = false]. *)
Theorem validate_positive_ttl cx store this (t q : Q) :
  created this = CreatedDate (Js.Num t) ->
  ttl this = Some (Js.Num q) ->
  (0 < q)%Q ->
  Spec.principal_known cx this ->
  let elapsed := ((inject_Z (now cx) - t) / 1000)%Q in
  ((elapsed < q)%Q ->
     validate cx store this = (store, [Callback None (Some true)]))
  /\ (~ (elapsed < q)%Q ->
      validate cx store this =
        (Spec.destroyed cx this store,
         [Destroy (id this); Callback (destroyFailure cx) (Some false)]))
  /\ ((elapsed == q)%Q ->
      validate cx store this =
        (Spec.destroyed cx this store,
         [Destroy (id this); Callback (destroyFailure cx) (Some false)])).
Proof.
  intros Hc Ht Hq Hp elapsed.
  pose proof (validate_known_principal cx store this
                (positive_ttl_asserts _ _ _ _ Hc Ht Hq) Hp) as Hv.
  rewrite (positive_ttl_isValid _ _ _ _ Hc Ht Hq) in Hv. fold elapsed in Hv.
  assert (Hinvalid : ~ (elapsed < q)%Q ->
            validate cx store this =
              (Spec.destroyed cx this store,
               [Destroy (id this); Callback (destroyFailure cx) (Some false)])).
  { intros Hge. destruct (Js.Qltb elapsed q) eqn:E; [|exact Hv].
    apply Qltb_lt in E. contradiction. }
  split; [|split].
  - intros Hlt. apply Qltb_lt in Hlt. rewrite Hlt in Hv. exact Hv.
  - exact Hinvalid.
  - intros Heq. apply Hinvalid. rewrite Heq. apply Qlt_irrefl.
Qed.




(** C4. Whenever [validate] determines a token invalid (the assertions
    have passed and [isValid] is false: the token has expired or is a
    disallowed eternal token), it calls [destroy] on that token before it
    reports invalidity to the callback, with nothing in between unless
    the principal was unresolved, and the record is gone from the store
    when [destroy] succeeds; a token reported valid is never destroyed. *)
Theorem validate_destroys_invalid cx store this :
  let store' := (validate cx store this).1 in
  let trace := (validate cx store this).2 in
  (Spec.fails_closed trace = false -> isValid cx this = false ->
     trace = (Destroy (id this) :: principal_ticks cx this
                ++ [Callback (destroyFailure cx) (Some false)])%list
     /\ (principal_unresolved cx this = false ->
         trace = [Destroy (id this); Callback (destroyFailure cx) (Some false)])
     /\ (destroyFailure cx = None ->
         forall i, id this = Some i -> store' !! i = None))
  /\ (Callback None (Some true) ∈ trace ->
      store' = store /\ forall i, Destroy i ∉ trace).
Proof.
  intros store' trace. unfold store', trace. clear store' trace.
  destruct (validate_asserts cx this) as [e|[]] eqn:E.
  - destruct (validate_asserts_error _ _ _ E) as [m ->].
    rewrite (validate_thrown _ _ _ _ E). simpl. split; [discriminate|].
    intros Hin. apply list_elem_of_singleton in Hin. discriminate.
  - rewrite (validate_past_asserts _ _ _ E).
    destruct (isValid cx this) eqn:Hv; simpl; split.
    + discriminate.
    + intros _. split; [reflexivity|]. intros i Hin.
      trace_elem Hin; discriminate.
    + intros _ _. rewrite destroy_error. split; [reflexivity|]. split.
      * intros Hp. unfold principal_ticks. rewrite Hp. reflexivity.
      * intros Hok i Hi. apply destroy_removes; assumption.
    + intros Hin. exfalso. trace_elem Hin; discriminate.
Qed.

(** ** Malformed tokens *)

Lemma malformed_refused this :
  created this <> CreatedDate Js.NaN ->
  Spec.malformed this = Spec.refused this.
Proof.
  unfold Spec.malformed, Spec.refused. intros Hc.
  destruct (created this) as [| |[|time]]; try reflexivity.
  contradiction Hc. reflexivity.
Qed.

(** C2 (as amended). The case of a Date object that holds no time is left
    aside.  For every other token [validate] fails closed with a hard
    error (one call of the callback, with an assertion error and no
    [isValid]) exactly when [created] is not a valid Date, or [ttl] is
    absent, or [ttl] is exactly 0, or [ttl] is below -1 while eternal
    tokens are not allowed.  Whenever [validate] fails closed the store is
    left alone; whenever it does not, each call of the callback carries
    an [isValid] and no error but the one [destroy] reported.  In
    particular [ttl = 0] always produces a hard error. *)
Theorem validate_fails_closed cx store this :
  let trace := (validate cx store this).2 in
  (created this <> CreatedDate Js.NaN ->
   Spec.fails_closed trace =
     Spec.malformed this
     || (negb (eternalTokensAllowed cx) && Spec.ttl_below (ttl this) (-1)))
  /\ (Spec.fails_closed trace = true -> (validate cx store this).1 = store)
  /\ (Spec.fails_closed trace = false ->
      forall err v, Callback err v ∈ trace ->
        (exists b, v = Some b) /\ (err = None \/ err = destroyFailure cx))
  /\ (Spec.ttl_zero (ttl this) = true ->
      exists message,
        validate cx store this =
          (store, [Callback (Some (AssertionError message)) None])).
Proof.
  intros trace. split.
  { intros Hc. rewrite (malformed_refused _ Hc). apply fails_closed_validate. }
  unfold trace. clear trace.
  destruct (validate_asserts cx this) as [e|[]] eqn:E.
  - destruct (validate_asserts_error _ _ _ E) as [m ->].
    rewrite (validate_thrown _ _ _ _ E). simpl.
    split; [reflexivity|]. split; [discriminate|]. eauto.
  - pose proof E as Hpass. apply validate_asserts_pass in Hpass as [Hm _].
    rewrite (validate_past_asserts _ _ _ E). split; [|split].
    + destruct (isValid cx this); simpl; [intros _; reflexivity | discriminate].
    + intros _ err v Hin. rewrite destroy_error in Hin.
      destruct (isValid cx this); cbn [snd] in Hin; trace_elem Hin;
        simplify_eq; split; eauto.
    + intros Hz. exfalso. unfold Spec.refused in Hm. rewrite Hz in Hm.
      rewrite orb_true_r in Hm. discriminate.
Qed.

(** ** Unresolved principals *)

(** Past the assertions, an unresolved principal queues the report
    [false] first, and the body still reports what [isValid] says. *)
Lemma validate_unresolved_principal cx store this :
  validate_asserts cx this = inr tt ->
  principal_unresolved cx this = true ->
  (validate cx store this).2 =
    if isValid cx this
    then [Callback None (Some false); Callback None (Some true)]
    else [Destroy (id this); Callback None (Some false);
          Callback (destroyFailure cx) (Some false)].
Proof.
  intros E Hp. rewrite (validate_past_asserts _ _ _ E).
  unfold principal_ticks. rewrite Hp.
  destruct (isValid cx this); simpl; [reflexivity|].
  rewrite destroy_error. reflexivity.
Qed.

(** With no principal type, or one the registry knows, the callback is
    called exactly once. *)
Lemma validate_resolved_principal cx store this :
  validate_asserts cx this = inr tt ->
  principal_unresolved cx this = false ->
  (validate cx store this).2 =
    if isValid cx this
    then [Callback None (Some true)]
    else [Destroy (id this); Callback (destroyFailure cx) (Some false)].
Proof.
  intros E Hp. rewrite (validate_past_asserts _ _ _ E).
  unfold principal_ticks. rewrite Hp.
  destruct (isValid cx this); simpl; [reflexivity|].
  rewrite destroy_error. reflexivity.
Qed.

(** C6. A token with a valid [created], a positive [ttl] that has not
    run out, and a principal type no model of the registry bears: the
    callback is called with [false] and then, the body having gone on
    past the unresolved principal, with [true]. *)
Theorem validate_unresolved_principal_reports_valid cx store this (t q : Q) name :
  created this = CreatedDate (Js.Num t) ->
  ttl this = Some (Js.Num q) ->
  (0 < q)%Q ->
  ((inject_Z (now cx) - t) / 1000 < q)%Q ->
  principalType this = Some name ->
  name <> "" ->
  registry cx !! name = None ->
  validate cx store this =
    (store, [Callback None (Some false); Callback None (Some true)]).
Proof.
  intros Hc Ht Hq Hfresh Hp Hname Hreg.
  rewrite (validate_past_asserts _ _ _ (positive_ttl_asserts _ _ _ _ Hc Ht Hq)).
  rewrite (positive_ttl_isValid _ _ _ _ Hc Ht Hq).
  apply Qltb_lt in Hfresh. rewrite Hfresh.
  unfold principal_ticks, principal_unresolved, findModel.
  rewrite Hp, Hreg. destruct name; [contradiction|]. reflexivity.
Qed.

(** ** Resolution *)

Lemma resolve_events_reply token trace :
  resolve_events token trace = map (Spec.reply token) (Spec.callbacks trace).
Proof.
  unfold resolve_events, Spec.callbacks.
  induction trace as [|ev trace IH]; [reflexivity|].
  destruct ev as [i|err v]; cbn; [exact IH|].
  rewrite IH. reflexivity.
Qed.

(** An error of the lookup itself is handed on as it is. *)
Lemma resolve_store_error cx store tokenId e :
  findFailure cx = Some e ->
  resolve cx store tokenId = (store, [ResolveCallback (Some e) None]).
Proof. intros H. unfold resolve, findById. rewrite H. reflexivity. Qed.

(** C5. For every token id, [resolve] looks the id up in the store.  If
    there is no record, the callback is called with neither error nor
    token.  If there is one, it is validated (with the effect on the
    store validation has), and every report of [validate] is answered:
    a report of invalidity with the error of code [INVALID_TOKEN] and
    status 401, a report of validity with that very token, an error with
    that error. *)
Theorem resolve_cases cx store tokenId :
  findFailure cx = None ->
  match store !! tokenId with
  | None => resolve cx store tokenId = (store, [ResolveCallback None None])
  | Some token =>
      resolve cx store tokenId =
        ((validate cx store token).1,
         map (Spec.reply token) (Spec.callbacks (validate cx store token).2))
  end.
Proof.
  intros Hfind. unfold resolve, findById. rewrite Hfind.
  destruct (store !! tokenId) as [token|]; [|reflexivity].
  destruct (validate cx store token) as [store' trace]. simpl.
  rewrite resolve_events_reply. reflexivity.
Qed.

(** ** The [before save] hook *)

Lemma set_id_frame inst newId :
  ttl (set_id inst newId) = ttl inst
  /\ created (set_id inst newId) = created inst
  /\ principalType (set_id inst newId) = principalType inst
  /\ userId (set_id inst newId) = userId inst
  /\ scopes (set_id inst newId) = scopes inst.
Proof. repeat split. Qed.

(** C10. The hook assigns an id only to a full instance that has none (no
    id, or the empty string), and then the one the generator produced,
    leaving every other attribute as it was.  For every partial update
    and for every instance whose id is set the context is unchanged and
    the save goes on; the same holds, with the error handed on, when the
    generator fails. *)
Theorem before_save_frame src ctx :
  let ctx' := (before_save src ctx).1 in
  (instance ctx = None -> before_save src ctx = (ctx, Next None))
  /\ (forall inst, instance ctx = Some inst -> id_truthy (id inst) = true ->
      before_save src ctx = (ctx, Next None))
  /\ (forall inst e, instance ctx = Some inst -> id_truthy (id inst) = false ->
      uid src (tokenIdLength src) = inl e ->
      before_save src ctx = (ctx, Next (Some e)))
  /\ (forall inst newId, instance ctx = Some inst -> id_truthy (id inst) = false ->
      uid src (tokenIdLength src) = inr newId ->
      before_save src ctx =
        ({| instance := Some (set_id inst newId); data := data ctx |}, Next None))
  /\ (ctx' <> ctx ->
      exists inst newId,
        instance ctx = Some inst /\ id_truthy (id inst) = false
        /\ uid src (tokenIdLength src) = inr newId
        /\ instance ctx' = Some (set_id inst newId))
  /\ data ctx' = data ctx
  /\ (forall inst, instance ctx = Some inst ->
      exists inst', instance ctx' = Some inst'
        /\ ttl inst' = ttl inst /\ created inst' = created inst
        /\ principalType inst' = principalType inst
        /\ userId inst' = userId inst /\ scopes inst' = scopes inst).
Proof.
  unfold before_save, createAccessTokenId.
  destruct (instance ctx) as [inst|] eqn:Hi; simpl.
  2:{ repeat split; try discriminate; try congruence. }
  destruct (id_truthy (id inst)) eqn:Ht; simpl.
  { repeat split; try discriminate; try congruence.
    intros inst0 [= <-]. exists inst. rewrite Hi. repeat split. }
  destruct (uid src (tokenIdLength src)) as [e|newId] eqn:Hu; simpl.
  { repeat split; try discriminate; try congruence.
    intros inst0 [= <-]. exists inst. rewrite Hi. repeat split. }
  repeat split; try discriminate; try congruence.
  - intros _. exists inst, newId. repeat split; assumption.
  - intros inst0 [= <-]. exists (set_id inst newId). repeat split.
Qed.

(** ** Strings *)

Lemma split_colon_first (user pass : string) :
  JsString.split_colon user = None ->
  JsString.split_colon (user ++ ":" ++ pass) = Some (user, pass).
Proof.
  induction user as [|c user IH]; simpl; [reflexivity|].
  destruct (Ascii.eqb c ":"); [discriminate|].
  destruct (JsString.split_colon user) as [[? ?]|]; [discriminate|].
  intros _. rewrite IH; reflexivity.
Qed.

Lemma split_colon_sound (s user pass : string) :
  JsString.split_colon s = Some (user, pass) ->
  s = user ++ ":" ++ pass /\ JsString.split_colon user = None.
Proof.
  revert user. induction s as [|c s IH]; simpl; [discriminate|].
  intros user. destruct (Ascii.eqb c ":") eqn:E.
  - intros [= <- <-]. apply Ascii.eqb_eq in E. subst c. split; reflexivity.
  - destruct (JsString.split_colon s) as [[u p]|]; [|discriminate].
    intros [= <- <-]. destruct (IH u eq_refl) as [-> Hu].
    split; [reflexivity|]. simpl. rewrite E, Hu. reflexivity.
Qed.

Lemma split_colon_none (user : string) :
  (forall c, In c (list_ascii_of_string user) -> c <> ":"%char) ->
  JsString.split_colon user = None.
Proof.
  induction user as [|c user IH]; [reflexivity|]. intros Hno. simpl.
  destruct (Ascii.eqb c ":") eqn:E.
  - apply Ascii.eqb_eq in E. exfalso. apply (Hno c); [left; reflexivity | exact E].
  - rewrite IH; [reflexivity|]. intros c' Hin. apply Hno. right. exact Hin.
Qed.

(** A value the Basic pattern matches is not empty and does not start
    with the Bearer prefix. *)
Lemma test_basic_not_bearer (value : string) :
  JsString.test_basic value = true ->
  Js.truthy_string value = true /\ JsString.starts_with "Bearer " value = false.
Proof.
  unfold JsString.test_basic.
  destruct value as [|c0 [|c1 value]]; cbn [JsString.lowercase JsString.starts_with];
    try discriminate.
  - rewrite andb_false_r. discriminate.
  - intros H. apply andb_prop in H as [_ H]. apply andb_prop in H as [Ha _].
    apply Ascii.eqb_eq in Ha. split; [reflexivity|].
    destruct (Ascii.eqb "e" c1) eqn:He.
    + apply Ascii.eqb_eq in He. subst c1. discriminate Ha.
    + cbn [andb]. apply andb_false_r.
Qed.

Lemma starts_with_app (p rest : string) : JsString.starts_with p (p ++ rest) = true.
Proof.
  induction p as [|c p IH]; [destruct rest; reflexivity|].
  change (String c p ++ rest) with (String c (p ++ rest)).
  cbn [JsString.starts_with]. rewrite Ascii.eqb_refl. exact IH.
Qed.

Lemma substring_from_app (p rest : string) :
  JsString.substring_from (String.length p) (p ++ rest) = rest.
Proof.
  induction p as [|c p IH]; [destruct rest; reflexivity|].
  change (String c p ++ rest) with (String c (p ++ rest)). exact IH.
Qed.

(** ** The request lookup *)

Lemma first_match_app (l1 l2 : list (option string)) :
  Spec.first_match (l1 ++ l2) =
  match Spec.first_match l1 with
  | Some found => Some found
  | None => Spec.first_match l2
  end.
Proof.
  unfold Spec.first_match.
  induction l1 as [|[s|] l1 IH]; cbn; [reflexivity | reflexivity | exact IH].
Qed.

Lemma first_match_cons (c : option string) (l : list (option string)) :
  Spec.first_match (c :: l) =
  match c with
  | Some found => Some found
  | None => Spec.first_match l
  end.
Proof. destruct c; reflexivity. Qed.

Lemma has_defined_read o k : has_defined o k = is_defined (read o k).
Proof. destruct o; reflexivity. Qed.

Lemma param_value_first_defined req name :
  param_value req name =
  Spec.first_defined [read (req_params req) name;
                      read (req_body req) name;
                      read (req_query req) name].
Proof.
  unfold param_value, Spec.first_defined. rewrite !has_defined_read.
  cbn [List.find].
  destruct (is_defined (read (req_params req) name)); [reflexivity|].
  destruct (is_defined (read (req_body req) name)); [reflexivity|].
  destruct (is_defined (read (req_query req) name)); reflexivity.
Qed.

Lemma search_params_first_match req params :
  search_params req params =
  Spec.first_match (map (Spec.param_candidate req) params).
Proof.
  induction params as [|param rest IH]; [reflexivity|].
  cbn [map search_params]. rewrite first_match_cons.
  unfold Spec.param_candidate at 1. rewrite <- param_value_first_defined.
  destruct (Js.as_string (param_value req param)); [reflexivity | exact IH].
Qed.

Lemma length_append (s1 s2 : string) :
  String.length (s1 ++ s2) = (String.length s1 + String.length s2)%nat.
Proof.
  induction s1 as [|c s1 IH]; [reflexivity|].
  change (String c s1 ++ s2) with (String c (s1 ++ s2)).
  cbn [String.length]. rewrite IH. reflexivity.
Qed.

Section RequestLookup.

Variable base64_utf8 : string -> string.

Lemma search_headers_first_match req options headers :
  search_headers base64_utf8 req options headers =
  Spec.first_match (map (Spec.header_candidate base64_utf8 req options) headers).
Proof.
  induction headers as [|name rest IH]; [reflexivity|].
  cbn [map search_headers]. rewrite first_match_cons.
  unfold Spec.header_candidate at 1.
  destruct (Js.as_string (req_header req name)) as [value|]; [|exact IH].
  destruct (Js.truthy_string value); [reflexivity | exact IH].
Qed.

Lemma search_cookies_first_match req cookies :
  search_cookies req cookies =
  Spec.first_match (map (Spec.cookie_candidate req) cookies).
Proof.
  unfold search_cookies, Spec.cookie_candidate.
  destruct (req_signedCookies req) as [jar|].
  - induction cookies as [|name rest IH]; [reflexivity|].
    cbn [map search_jar]. rewrite first_match_cons.
    destruct (Js.as_string (Js.get jar name)); [reflexivity | exact IH].
  - induction cookies as [|name rest IH]; [reflexivity|].
    cbn [map]. rewrite first_match_cons. exact IH.
Qed.

(** C7 (as amended). [getIdForRequest] searches in strict order: the
    configured parameter names, each giving one candidate, the first
    defined value among route parameters, body and query, accepted when
    it is a string; then the configured header names, a header being
    accepted when its value is a non-empty string (and read through the
    Bearer and Basic schemes); then, when the request has signed cookies,
    the configured cookie names.  It returns the first candidate accepted,
    or null when there is none. *)
Theorem getIdForRequest_ordered_search req options :
  getIdForRequest base64_utf8 req options =
  Spec.getIdForRequest_first_defined base64_utf8 req options.
Proof.
  unfold getIdForRequest, Spec.getIdForRequest_first_defined.
  rewrite !first_match_app.
  rewrite <- search_params_first_match, <- search_headers_first_match,
    <- search_cookies_first_match.
  reflexivity.
Qed.

(** The Bearer scheme: the prefix is dropped, and the rest is decoded
    only when the option is set to a true value. *)
Lemma header_token_bearer options rest :
  header_token base64_utf8 options ("Bearer " ++ rest) =
  if Js.truthy (bearerTokenBase64Encoded options) then base64_utf8 rest else rest.
Proof. reflexivity. Qed.

(** C8. Called without options, or with options that leave
    [bearerTokenBase64Encoded] out, the lookup takes the text after the
    Bearer prefix as it stands, whatever the base64 decoding would give:
    for the header [authorization: Bearer dG9rZW4=] the id is [dG9rZW4=]. *)
Theorem getIdForRequest_bearer_without_options :
  (forall rest,
     header_token base64_utf8 no_options ("Bearer " ++ rest) = rest)
  /\ getIdForRequest base64_utf8 Sample.bearer None = Some "dG9rZW4="
  /\ getIdForRequest base64_utf8 Sample.bearer (Some no_options) = Some "dG9rZW4=".
Proof.
  split; [|split].
  - intros rest. rewrite header_token_bearer. reflexivity.
  - reflexivity.
  - reflexivity.
Qed.

(** On credentials whose text after the first colon holds no line
    terminator the Basic scheme does what section 4.1 says: a header value
    matching [Basic ] in any letter case is base64-decoded; when the
    decoded text is [user:pass] with no colon in [user] and no line
    terminator in [pass], the part after the colon is returned when it is
    strictly longer than the part before it, and the part before it
    otherwise.  A header whose value is the empty string is skipped and
    the search continues with the next name. *)
Theorem search_headers_basic req options name rest :
  (forall value user pass,
     req_header req name = Js.Str value ->
     JsString.test_basic value = true ->
     base64_utf8 (JsString.substring_from 6 value) = user ++ ":" ++ pass ->
     (forall c, In c (list_ascii_of_string user) -> c <> ":"%char) ->
     JsString.has_line_terminator pass = false ->
     search_headers base64_utf8 req options (name :: rest) =
       Some (if (String.length user <? String.length pass)%nat then pass else user))
  /\ (req_header req name = Js.Str "" ->
      search_headers base64_utf8 req options (name :: rest) =
        search_headers base64_utf8 req options rest).
Proof.
  split.
  - intros value user pass Hh Hb Hd Hu Hp.
    destruct (test_basic_not_bearer value Hb) as [Hne Hnb].
    cbn [search_headers]. rewrite Hh. cbn [Js.as_string]. rewrite Hne.
    unfold header_token. rewrite Hnb, Hb, Hd.
    unfold JsString.exec_user_pass.
    rewrite (split_colon_first user pass (split_colon_none user Hu)), Hp.
    reflexivity.
  - intros Hh. cbn [search_headers]. rewrite Hh. reflexivity.
Qed.

(** C9. Basic credentials [user:pass] with a line terminator in [pass]
    are not split: the pattern does not match them, and the whole decoded
    text, longer than either part, is taken for the token id where the
    longer of the two parts was to be. *)
Theorem search_headers_basic_line_terminator req options name rest value user pass :
  req_header req name = Js.Str value ->
  JsString.test_basic value = true ->
  base64_utf8 (JsString.substring_from 6 value) = user ++ ":" ++ pass ->
  (forall c, In c (list_ascii_of_string user) -> c <> ":"%char) ->
  JsString.has_line_terminator pass = true ->
  search_headers base64_utf8 req options (name :: rest) = Some (user ++ ":" ++ pass)
  /\ user ++ ":" ++ pass
     <> (if (String.length user <? String.length pass)%nat then pass else user).
Proof.
  intros Hh Hb Hd Hu Hp. split.
  - destruct (test_basic_not_bearer value Hb) as [Hne Hnb].
    cbn [search_headers]. rewrite Hh. cbn [Js.as_string]. rewrite Hne.
    unfold header_token. rewrite Hnb, Hb, Hd.
    unfold JsString.exec_user_pass.
    rewrite (split_colon_first user pass (split_colon_none user Hu)), Hp.
    reflexivity.
  - intros Heq. apply (f_equal String.length) in Heq.
    rewrite !length_append in Heq. cbn [String.length] in Heq.
    destruct (String.length user <? String.length pass)%nat; lia.
Qed.

(** Without a colon, or with a line terminator after the first colon, the
    whole decoded text is the id. *)
Lemma header_token_basic_whole options value :
  JsString.test_basic value = true ->
  JsString.exec_user_pass (base64_utf8 (JsString.substring_from 6 value)) = None ->
  header_token base64_utf8 options value =
    base64_utf8 (JsString.substring_from 6 value).
Proof.
  intros Hb He. destruct (test_basic_not_bearer value Hb) as [_ Hnb].
  unfold header_token. rewrite Hnb, Hb, He. reflexivity.
Qed.

End RequestLookup.

(** ** The properties on the sample data *)

Example base64_token : Base64.decode "dG9rZW4=" = "token".
Proof. reflexivity. Qed.

(** The four shapes the source lists for the Basic scheme all give [a2b2c3]. *)
Example basic_shapes :
  map (fun credentials => Spec.longer_part credentials)
      ["a2b2c3"; "a2b2c3:"; "token:a2b2c3"; ":a2b2c3"]
  = ["a2b2c3"; "a2b2c3"; "a2b2c3"; "a2b2c3"].
Proof. reflexivity. Qed.

Example getIdForRequest_basic :
  getIdForRequest Base64.decode Sample.basic None = Some "a2b2c3".
Proof. reflexivity. Qed.

Example getIdForRequest_bearer_decoded :
  getIdForRequest Base64.decode Sample.bearer
    (Some {| opt_params := None; opt_headers := None; opt_cookies := None;
             searchDefaultTokenKeys := Js.Undefined;
             bearerTokenBase64Encoded := Js.Bool true |})
  = Some "token".
Proof. reflexivity. Qed.

Example validate_expired :
  validate Sample.NoUser Sample.store Sample.expired =
    (delete "t-expired" Sample.store,
     [Destroy (Some "t-expired"); Callback None (Some false)]).
Proof. reflexivity. Qed.

Lemma validate_positive_ttl_witness :
  validate Sample.NoUser Sample.store Sample.fresh =
    (Sample.store, [Callback None (Some true)])
  /\ validate Sample.NoUser Sample.store Sample.expired =
       (delete "t-expired" Sample.store,
        [Destroy (Some "t-expired"); Callback None (Some false)]).
Proof.
  split.
  - apply (proj1 (validate_positive_ttl Sample.NoUser Sample.store Sample.fresh
                    1000 10 eq_refl eq_refl eq_refl I)).
    reflexivity.
  - apply (proj2 (proj2 (validate_positive_ttl Sample.NoUser Sample.store
                           Sample.expired 1000 4 eq_refl eq_refl eq_refl I))).
    reflexivity.
Defined.

Lemma validate_unresolved_principal_witness :
  validate Sample.NoUser Sample.store Sample.ghost =
    (Sample.store, [Callback None (Some false); Callback None (Some true)]).
Proof.
  apply (validate_unresolved_principal_reports_valid Sample.NoUser Sample.store
           Sample.ghost 1000 10 "Ghost");
    try reflexivity.
  discriminate.
Defined.

(** The wording of section 4.1 fails on a token with [ttl = -2] when no
    model allows eternal tokens: the token is not malformed in the sense
    of that section, and [validate] fails closed all the same. *)
Lemma validate_negative_ttl_fails_closed :
  Spec.malformed Sample.negative = false
  /\ validate Sample.NoUser Sample.store Sample.negative =
       (Sample.store,
        [Callback (Some (AssertionError "token.ttl must be >= -1")) None])
  /\ Spec.fails_closed (validate Sample.NoUser Sample.store Sample.negative).2
       <> Spec.malformed Sample.negative.
Proof. repeat split. discriminate. Qed.

Lemma validate_fails_closed_witness :
  Spec.fails_closed (validate Sample.NoUser Sample.store Sample.negative).2 =
    Spec.malformed Sample.negative
    || (negb (eternalTokensAllowed Sample.NoUser)
        && Spec.ttl_below (ttl Sample.negative) (-1))
  /\ exists message,
       validate Sample.NoUser Sample.store Sample.zero =
         (Sample.store, [Callback (Some (AssertionError message)) None]).
Proof.
  split.
  - apply (proj1 (validate_fails_closed Sample.NoUser Sample.store
                    Sample.negative)).
    discriminate.
  - exact (proj2 (proj2 (proj2
             (validate_fails_closed Sample.NoUser Sample.store Sample.zero)))
             eq_refl).
Defined.


Lemma validate_destroys_invalid_witness :
  ((validate Sample.NoUser Sample.store Sample.expired).2 =
     [Destroy (Some "t-expired"); Callback None (Some false)]
   /\ (validate Sample.NoUser Sample.store Sample.expired).1 !! "t-expired" = None)
  /\ ((validate Sample.NoUser Sample.store Sample.fresh).1 = Sample.store
      /\ forall i, Destroy i ∉ (validate Sample.NoUser Sample.store Sample.fresh).2).
Proof.
  split.
  - destruct (proj1 (validate_destroys_invalid Sample.NoUser Sample.store
                       Sample.expired) eq_refl eq_refl) as (_ & Htrace & Hgone).
    split; [exact (Htrace eq_refl) | exact (Hgone eq_refl "t-expired" eq_refl)].
  - apply (proj2 (validate_destroys_invalid Sample.NoUser Sample.store
                    Sample.fresh)).
    apply list_elem_of_singleton. reflexivity.
Defined.

Lemma resolve_cases_witness :
  resolve Sample.NoUser Sample.store "t-fresh" =
    (Sample.store, [ResolveCallback None (Some Sample.fresh)])
  /\ resolve Sample.NoUser Sample.store "t-expired" =
       (delete "t-expired" Sample.store,
        [ResolveCallback
           (Some (HttpError "Invalid Access Token" 401 401 "INVALID_TOKEN")) None])
  /\ resolve Sample.NoUser Sample.store "t-unknown" =
       (Sample.store, [ResolveCallback None None]).
Proof.
  split; [|split].
  - exact (resolve_cases Sample.NoUser Sample.store "t-fresh" eq_refl).
  - exact (resolve_cases Sample.NoUser Sample.store "t-expired" eq_refl).
  - exact (resolve_cases Sample.NoUser Sample.store "t-unknown" eq_refl).
Defined.

(** The wording of section 4.1 fails on a request whose body holds a number
    under [access_token] and whose query holds a string: the query is
    never read, and the lookup finds nothing. *)
Lemma getIdForRequest_shadowed_query :
  getIdForRequest Base64.decode Sample.shadowed None = None
  /\ Spec.getIdForRequest_every_source Base64.decode Sample.shadowed None
     = Some "abc".
Proof. split; reflexivity. Qed.

(** The wording of section 4.1 fails on the credentials [a:bb], line feed,
    [c]: the pattern does not match them, and the whole decoded text is
    returned where the part after the colon is the longer one. *)
Lemma getIdForRequest_basic_two_lines :
  Base64.decode "YTpiYgpj" = Sample.two_lines
  /\ Spec.longer_part Sample.two_lines = "bb" ++ String "010"%char "c"
  /\ getIdForRequest Base64.decode Sample.basic_two_lines None
     = Some Sample.two_lines
  /\ getIdForRequest Base64.decode Sample.basic_two_lines None
     <> Some (Spec.longer_part (Base64.decode "YTpiYgpj")).
Proof. repeat split. discriminate. Qed.

Lemma search_headers_basic_witness :
  search_headers Base64.decode Sample.basic no_options ["authorization"]
  = Some "a2b2c3".
Proof.
  apply (proj1 (search_headers_basic Base64.decode Sample.basic no_options
                  "authorization" [])
           "basic dG9rZW46YTJiMmMz" "token" "a2b2c3");
    try reflexivity.
  intros c Hin. simpl in Hin.
  repeat (destruct Hin as [<-|Hin]; [discriminate|]). contradiction.
Defined.

Lemma search_headers_basic_line_terminator_witness :
  search_headers Base64.decode Sample.basic_two_lines no_options ["authorization"]
  = Some Sample.two_lines
  /\ Sample.two_lines <> "bb" ++ String "010"%char "c".
Proof.
  apply (search_headers_basic_line_terminator Base64.decode Sample.basic_two_lines
           no_options "authorization" [] "Basic YTpiYgpj"
           "a" ("bb" ++ String "010"%char "c"));
    try reflexivity.
  intros c [<-|[]]. discriminate.
Defined.

Lemma before_save_frame_witness :
  before_save Sample.source
    {| instance := Some (Sample.with_id None); data := None |}
  = ({| instance := Some (Sample.with_id (Some "generated-64")); data := None |},
     Next None)
  /\ before_save Sample.source
       {| instance := Some (Sample.with_id (Some "t1")); data := None |}
     = ({| instance := Some (Sample.with_id (Some "t1")); data := None |},
        Next None)
  /\ before_save Sample.source
       {| instance := None; data := Some {[ "ttl" := Js.Number (Js.Num 60) ]} |}
     = ({| instance := None; data := Some {[ "ttl" := Js.Number (Js.Num 60) ]} |},
        Next None).
Proof.
  split; [|split].
  - exact (proj1 (proj2 (proj2 (proj2
             (before_save_frame Sample.source
                {| instance := Some (Sample.with_id None); data := None |}))))
             (Sample.with_id None) "generated-64" eq_refl eq_refl eq_refl).
  - exact (proj1 (proj2
             (before_save_frame Sample.source
                {| instance := Some (Sample.with_id (Some "t1")); data := None |}))
             (Sample.with_id (Some "t1")) eq_refl eq_refl).
  - exact (proj1
             (before_save_frame Sample.source
                {| instance := None;
                   data := Some {[ "ttl" := Js.Number (Js.Num 60) ]} |})
             eq_refl).
Defined.

(** * Further properties *)

(** ** What validation does to the store and to its callback *)

(** [validate] reports a token valid exactly when the assertions pass and
    [isValid] holds. *)
Lemma reports_valid_iff cx store this :
  Callback None (Some true) ∈ (validate cx store this).2 <->
  validate_asserts cx this = inr tt /\ isValid cx this = true.
Proof.
  destruct (validate_asserts cx this) as [e|[]] eqn:E.
  - rewrite (validate_thrown _ _ _ _ E). split.
    + intros Hin. cbn [snd] in Hin. trace_elem Hin; discriminate.
    + intros [? _]. discriminate.
  - rewrite (validate_past_asserts _ _ _ E).
    destruct (isValid cx this); cbn [snd]; split.
    + intros _. split; reflexivity.
    + intros _. apply elem_of_snoc.
    + intros Hin. trace_elem Hin; discriminate.
    + intros [_ ?]. discriminate.
Qed.

(** X3. [validate] touches no record but the token's own: every other id
    reads the same before and after, and a token without an id leaves the
    whole table as it was. *)
Theorem validate_frame cx store this :
  (forall j, id this <> Some j ->
     (validate cx store this).1 !! j = store !! j)
  /\ (id this = None -> (validate cx store this).1 = store).
Proof.
  assert (Hcases : (validate cx store this).1 = store
                   \/ (validate cx store this).1 = (destroy cx this store).1).
  { destruct (validate_asserts cx this) as [e|[]] eqn:E.
    - rewrite (validate_thrown _ _ _ _ E). left. reflexivity.
    - rewrite (validate_past_asserts _ _ _ E).
      destruct (isValid cx this); [left | right]; reflexivity. }
  assert (Hdestroy : (destroy cx this store).1 =
                     match destroyFailure cx, id this with
                     | None, Some i => delete i store
                     | _, _ => store
                     end).
  { unfold destroy. destruct (destroyFailure cx), (id this); reflexivity. }
  split.
  - intros j Hj. destruct Hcases as [-> | ->]; [reflexivity|].
    rewrite Hdestroy. destruct (destroyFailure cx); [reflexivity|].
    destruct (id this) as [i|]; [|reflexivity].
    apply lookup_delete_ne. congruence.
  - intros Hid. destruct Hcases as [-> | ->]; [reflexivity|].
    rewrite Hdestroy, Hid. destruct (destroyFailure cx); reflexivity.
Qed.

Lemma validate_frame_witness :
  (validate Sample.NoUser Sample.store Sample.expired).1 !! "t-fresh"
  = Sample.store !! "t-fresh".
Proof.
  apply (proj1 (validate_frame Sample.NoUser Sample.store Sample.expired)).
  discriminate.
Defined.

(** X4. The callback of [validate] is called once, except for a token
    that passes the assertions and names a principal type the registry
    does not know: then it is called twice. *)
Theorem validate_calls cx store this :
  let trace := (validate cx store this).2 in
  Spec.calls trace =
    if negb (Spec.fails_closed trace) && principal_unresolved cx this
    then 2 else 1.
Proof.
  intros trace. unfold trace. clear trace.
  destruct (validate_asserts cx this) as [e|[]] eqn:E.
  - destruct (validate_asserts_error _ _ _ E) as [m ->].
    rewrite (validate_thrown _ _ _ _ E). reflexivity.
  - rewrite (validate_past_asserts _ _ _ E). unfold principal_ticks.
    destruct (isValid cx this), (principal_unresolved cx this); reflexivity.
Qed.

(** ** Expiry *)

Lemma validate_asserts_at_time cx n this :
  validate_asserts (Spec.at_time cx n) this = validate_asserts cx this.
Proof. reflexivity. Qed.

Lemma elapsed_monotone (a b : Z) (t : Q) :
  (a <= b)%Z ->
  ((inject_Z a - t) / 1000 <= (inject_Z b - t) / 1000)%Q.
Proof.
  intros Hab. unfold Qdiv. apply Qmult_le_compat_r; [|discriminate].
  unfold Qminus. apply Qplus_le_compat; [|apply Qle_refl].
  rewrite <- Zle_Qle. exact Hab.
Qed.

(** X5. Validity never comes back: a token [validate] reports valid at
    some time is reported valid at every earlier time, so a token found
    invalid stays invalid from then on. *)
Theorem validate_valid_earlier cx store store' this (later : Z) :
  (now cx <= later)%Z ->
  Callback None (Some true) ∈ (validate (Spec.at_time cx later) store' this).2 ->
  Callback None (Some true) ∈ (validate cx store this).2.
Proof.
  intros Hle Hin. apply reports_valid_iff in Hin as [Ha Hv].
  apply reports_valid_iff. split; [exact Ha|].
  revert Hv. unfold isValid, elapsedSeconds, eternalTokensAllowed.
  cbn [Spec.at_time userModel now].
  destruct (Js.strict_eq (ttl_number (ttl this)) (Js.Num (-1))); [tauto|].
  destruct (getTime (created this)) as [|t]; [tauto|].
  destruct (ttl_number (ttl this)) as [|q]; [tauto|].
  cbn [Js.sub Js.div]. change (Qeq_bool 1000 0) with false. cbn [Js.lt].
  rewrite !Qltb_lt. intros Hlt.
  eapply Qle_lt_trans; [apply elapsed_monotone; exact Hle | exact Hlt].
Qed.

Lemma validate_valid_earlier_witness :
  Callback None (Some true) ∈ (validate Sample.NoUser Sample.store Sample.fresh).2.
Proof.
  apply (validate_valid_earlier Sample.NoUser Sample.store Sample.store
           Sample.fresh 6000).
  - discriminate.
  - apply list_elem_of_singleton. reflexivity.
Defined.

(** X6. A [created] that is a Date object without a time (its [getTime]
    gives NaN) passes the assertion on [created]; with a positive [ttl]
    the token is then never valid: it is destroyed and reported invalid,
    and no hard error is raised. *)
Theorem validate_date_without_time cx store this (q : Q) :
  created this = CreatedDate Js.NaN ->
  ttl this = Some (Js.Num q) ->
  (0 < q)%Q ->
  validate cx store this =
    ((destroy cx this store).1,
     (Destroy (id this) :: principal_ticks cx this
        ++ [Callback (destroyFailure cx) (Some false)])%list).
Proof.
  intros Hc Ht Hq.
  rewrite (validate_past_asserts _ _ _ (positive_ttl_asserts _ _ _ _ Hc Ht Hq)).
  assert (Hv : isValid cx this = false).
  { unfold isValid, elapsedSeconds, ttl_number. rewrite Hc, Ht. simpl.
    replace (Qeq_bool q (-1)) with false; [reflexivity|].
    symmetry. apply Qeq_bool_false_of_lt.
    apply (Qlt_trans _ 0); [reflexivity | exact Hq]. }
  rewrite Hv, destroy_error. reflexivity.
Qed.

Lemma validate_date_without_time_witness :
  validate Sample.NoUser Sample.store Sample.undated =
    (Sample.store, [Destroy (Some "t-undated"); Callback None (Some false)]).
Proof.
  exact (validate_date_without_time Sample.NoUser Sample.store Sample.undated 10
           eq_refl eq_refl eq_refl).
Defined.

(** X7. Where eternal tokens are allowed, a [ttl] below -1 is no hard
    error: a token so marked, created now or in the past, is destroyed
    and reported invalid like an expired one. *)
Theorem validate_below_minus_one_allowed cx store this (t q : Q) :
  eternalTokensAllowed cx = true ->
  created this = CreatedDate (Js.Num t) ->
  ttl this = Some (Js.Num q) ->
  (q < -1)%Q ->
  (t <= inject_Z (now cx))%Q ->
  validate cx store this =
    ((destroy cx this store).1,
     (Destroy (id this) :: principal_ticks cx this
        ++ [Callback (destroyFailure cx) (Some false)])%list).
Proof.
  intros He Hc Ht Hq Hpast.
  assert (Hneg : (q < 0)%Q).
  { apply (Qlt_trans _ (-1)); [exact Hq | reflexivity]. }
  assert (Ha : validate_asserts cx this = inr tt).
  { apply validate_asserts_pass.
    unfold Spec.refused, Spec.ttl_absent, Spec.ttl_zero. rewrite Hc, Ht, He.
    cbn. rewrite (Qeq_bool_false_of_gt 0 q Hneg). split; reflexivity. }
  assert (Hv : isValid cx this = false).
  { unfold isValid, elapsedSeconds, ttl_number. rewrite Hc, Ht. simpl.
    replace (Qeq_bool q (-1)) with false
      by (symmetry; apply Qeq_bool_false_of_gt; exact Hq).
    destruct (Js.Qltb ((inject_Z (now cx) - t) / 1000) q) eqn:E; [|reflexivity].
    apply Qltb_lt in E. exfalso.
    assert (H0 : (0 <= (inject_Z (now cx) - t) / 1000)%Q).
    { unfold Qdiv. apply Qmult_le_0_compat; [|discriminate].
      unfold Qminus. rewrite <- (Qplus_opp_r t).
      apply Qplus_le_compat; [exact Hpast | apply Qle_refl]. }
    apply (Qlt_irrefl 0). eapply Qle_lt_trans; [exact H0|].
    eapply Qlt_trans; [exact E | exact Hneg]. }
  rewrite (validate_past_asserts _ _ _ Ha), Hv, destroy_error. reflexivity.
Qed.

Lemma validate_below_minus_one_allowed_witness :
  validate Sample.Eternal Sample.store Sample.below =
    (Sample.store, [Destroy (Some "t-below"); Callback None (Some false)]).
Proof.
  exact (validate_below_minus_one_allowed Sample.Eternal Sample.store
           Sample.below 1000 (-5) eq_refl eq_refl eq_refl eq_refl
           ltac:(discriminate)).
Defined.

(** ** Resolution and the store *)

(** [validate] adds no record and alters none. *)
Lemma validate_only_removes cx store this j token :
  (validate cx store this).1 !! j = Some token -> store !! j = Some token.
Proof.
  destruct (decide (id this = Some j)) as [Hj|Hj].
  - destruct (validate_asserts cx this) as [e|[]] eqn:E.
    + rewrite (validate_thrown _ _ _ _ E). tauto.
    + rewrite (validate_past_asserts _ _ _ E).
      destruct (isValid cx this); [tauto|]. cbn [fst].
      unfold destroy. rewrite Hj. destruct (destroyFailure cx); [tauto|].
      cbn [fst]. rewrite lookup_delete_eq. discriminate.
  - rewrite (proj1 (validate_frame cx store this) j Hj). tauto.
Qed.

Lemma elem_of_resolve_events token trace call :
  call ∈ resolve_events token trace ->
  exists err v, Callback err v ∈ trace /\ call = on_validate token err v.
Proof.
  unfold resolve_events. intros Hin.
  apply list_elem_of_omap in Hin as (ev & Hev & Hcall).
  destruct ev as [i|err v]; [discriminate|].
  exists err, v. split; [exact Hev | congruence].
Qed.

(** X8. [resolve] hands out nothing but what the store holds: a token
    passed to the callback comes without an error, is the record stored
    under the id asked for, and has just been reported valid by
    [validate]; and "no token, no error" is only said when the store has
    no such record. *)
Theorem resolve_sound cx store tokenId err token :
  ResolveCallback err token ∈ (resolve cx store tokenId).2 ->
  match token with
  | Some found =>
      err = None /\ store !! tokenId = Some found
      /\ Callback None (Some true) ∈ (validate cx store found).2
  | None => err = None -> store !! tokenId = None
  end.
Proof.
  unfold resolve, findById.
  destruct (findFailure cx) as [e|].
  { intros Hin. cbn [snd] in Hin. trace_elem Hin. simplify_eq. discriminate. }
  destruct (store !! tokenId) as [stored|] eqn:Hs.
  - destruct (validate cx store stored) as [store' trace] eqn:Hv.
    cbn [snd]. intros Hin.
    apply elem_of_resolve_events in Hin as (e & v & Hcb & Hcall).
    unfold on_validate in Hcall.
    destruct e as [e|]; [simplify_eq; discriminate|].
    destruct v as [[|]|]; simplify_eq; try discriminate.
    repeat split. rewrite Hv. exact Hcb.
  - intros Hin. cbn [snd] in Hin. trace_elem Hin. simplify_eq. reflexivity.
Qed.

Lemma resolve_sound_witness :
  @None Error = None /\ Sample.store !! "t-fresh" = Some Sample.fresh
  /\ Callback None (Some true)
       ∈ (validate Sample.NoUser Sample.store Sample.fresh).2.
Proof.
  apply (resolve_sound Sample.NoUser Sample.store "t-fresh" None
           (Some Sample.fresh)).
  apply list_elem_of_singleton. reflexivity.
Defined.

Lemma Qltb_ge (x y : Q) : Js.Qltb x y = false <-> (y <= x)%Q.
Proof. unfold Js.Qltb. rewrite negb_false_iff. apply Qle_bool_iff. Qed.

(** X9. An expired token is refused once and gone afterwards: with a
    store that answers, resolving the id of a stored token whose positive
    [ttl] has run out removes the record and answers with the
    [INVALID_TOKEN] error only; resolving the same id again finds no
    token, which is no error. *)
Theorem resolve_expired_twice cx store tokenId token (t q : Q) :
  findFailure cx = None ->
  destroyFailure cx = None ->
  store !! tokenId = Some token ->
  id token = Some tokenId ->
  created token = CreatedDate (Js.Num t) ->
  ttl token = Some (Js.Num q) ->
  (0 < q)%Q ->
  (q <= (inject_Z (now cx) - t) / 1000)%Q ->
  let first := resolve cx store tokenId in
  first.1 = delete tokenId store
  /\ first.2 <> []
  /\ (forall call, call ∈ first.2 ->
        call = ResolveCallback (Some invalid_token_error) None)
  /\ resolve cx first.1 tokenId = (first.1, [ResolveCallback None None]).
Proof.
  intros Hfind Hdestroy Hs Hid Hc Ht Hq Hexp first.
  assert (Hv : validate cx store token =
               (delete tokenId store,
                (Destroy (id token) :: principal_ticks cx token
                   ++ [Callback None (Some false)])%list)).
  { rewrite (validate_past_asserts _ _ _ (positive_ttl_asserts _ _ _ _ Hc Ht Hq)).
    rewrite (positive_ttl_isValid _ _ _ _ Hc Ht Hq).
    apply Qltb_ge in Hexp. rewrite Hexp, destroy_error, Hdestroy.
    unfold destroy. rewrite Hdestroy, Hid. reflexivity. }
  assert (Hfirst : first =
            (delete tokenId store,
             resolve_events token
               (Destroy (id token) :: principal_ticks cx token
                  ++ [Callback None (Some false)])%list)).
  { unfold first, resolve, findById. rewrite Hfind, Hs, Hv. reflexivity. }
  rewrite Hfirst. cbn [fst snd]. split; [reflexivity|]. split; [|split].
  - destruct (principal_ticks_cases cx token) as [-> | ->]; discriminate.
  - intros call Hin.
    apply elem_of_resolve_events in Hin as (e & v & Hcb & ->).
    trace_elem Hcb; simplify_eq; reflexivity.
  - unfold resolve, findById. rewrite Hfind, lookup_delete_eq. reflexivity.
Qed.

Lemma resolve_expired_twice_witness :
  (resolve Sample.NoUser Sample.store "t-expired").1 = delete "t-expired" Sample.store
  /\ (resolve Sample.NoUser Sample.store "t-expired").2 <> []
  /\ (forall call, call ∈ (resolve Sample.NoUser Sample.store "t-expired").2 ->
        call = ResolveCallback (Some invalid_token_error) None)
  /\ resolve Sample.NoUser (resolve Sample.NoUser Sample.store "t-expired").1
       "t-expired"
     = ((resolve Sample.NoUser Sample.store "t-expired").1,
        [ResolveCallback None None]).
Proof.
  apply (resolve_expired_twice Sample.NoUser Sample.store "t-expired"
           Sample.expired 1000 4);
    try reflexivity.
  discriminate.
Defined.

(** X10. [resolve] keeps the token table in order: on a table whose
    records are stored under their own ids it adds and alters nothing,
    leaves every id but the one asked for untouched, and the table it
    leaves behind still has every record under its own id. *)
Theorem resolve_keeps_store cx store tokenId :
  Spec.keyed_by_id store ->
  let store' := (resolve cx store tokenId).1 in
  (forall j token, store' !! j = Some token -> store !! j = Some token)
  /\ (forall j, j <> tokenId -> store' !! j = store !! j)
  /\ Spec.keyed_by_id store'.
Proof.
  intros Hkeyed store'.
  assert (Hcases : store' = store
                   \/ exists token, store !! tokenId = Some token
                                    /\ store' = (validate cx store token).1).
  { unfold store', resolve, findById.
    destruct (findFailure cx); [left; reflexivity|].
    destruct (store !! tokenId) as [token|] eqn:Hs; [|left; reflexivity].
    right. exists token. split; [reflexivity|].
    destruct (validate cx store token). reflexivity. }
  assert (Hsub : forall j token, store' !! j = Some token -> store !! j = Some token).
  { destruct Hcases as [-> | (token & _ & ->)]; [tauto|].
    intros j found. apply validate_only_removes. }
  split; [exact Hsub|]. split.
  - intros j Hj. destruct Hcases as [-> | (token & Hs & ->)]; [reflexivity|].
    apply validate_frame. rewrite (Hkeyed _ _ Hs). congruence.
  - intros j token Hj. apply (Hkeyed j). apply Hsub. exact Hj.
Qed.

Lemma sample_store_keyed : Spec.keyed_by_id Sample.store.
Proof.
  intros i token H. unfold Sample.store in H.
  rewrite !lookup_insert in H.
  repeat case_decide; simplify_map_eq; reflexivity.
Qed.

Lemma resolve_keeps_store_witness :
  (resolve Sample.NoUser Sample.store "t-expired").1 !! "t-fresh"
  = Sample.store !! "t-fresh".
Proof.
  apply (proj1 (proj2 (resolve_keeps_store Sample.NoUser Sample.store "t-expired"
                         sample_store_keyed))).
  discriminate.
Defined.

(** ** The request lookup and [findForRequest] *)

Lemma search_params_app req l1 l2 :
  search_params req (l1 ++ l2)%list =
  match search_params req l1 with
  | Some found => Some found
  | None => search_params req l2
  end.
Proof.
  induction l1 as [|param l1 IH]; [reflexivity|]. cbn [app search_params].
  destruct (Js.as_string (param_value req param)); [reflexivity | exact IH].
Qed.

Lemma is_not_false_iff v : is_not_false v = true <-> v <> Js.Bool false.
Proof.
  destruct v as [| |[|]| | |]; cbn; split; congruence.
Qed.

(** The pattern of the Basic scheme gives back the text it was given: a
    match is the text before the first colon and the text after it. *)
Lemma split_colon_no_colon (user : string) :
  JsString.split_colon user = None ->
  forall c, In c (list_ascii_of_string user) -> c <> ":"%char.
Proof.
  induction user as [|c0 user IH]; [intros _ c []|]. simpl.
  destruct (Ascii.eqb c0 ":") eqn:E; [discriminate|].
  destruct (JsString.split_colon user) as [[? ?]|]; [discriminate|].
  intros _ c [<-|Hin].
  - intros ->. rewrite Ascii.eqb_refl in E. discriminate.
  - apply IH; [reflexivity | exact Hin].
Qed.

(** X11. The pattern that splits Basic credentials matches a text exactly
    when the text is [user:pass] with no colon in [user] and no line
    terminator in [pass], and then gives these two parts: nothing of the
    text is lost, and the split is at the first colon. *)
Theorem exec_user_pass_iff (s user pass : string) :
  JsString.exec_user_pass s = Some (user, pass) <->
  s = user ++ ":" ++ pass
  /\ (forall c, In c (list_ascii_of_string user) -> c <> ":"%char)
  /\ JsString.has_line_terminator pass = false.
Proof.
  unfold JsString.exec_user_pass. split.
  - destruct (JsString.split_colon s) as [[u p]|] eqn:E; [|discriminate].
    destruct (JsString.has_line_terminator p) eqn:Hp; [discriminate|].
    intros [= <- <-]. destruct (split_colon_sound _ _ _ E) as [-> Hu].
    split; [reflexivity|]. split; [|exact Hp].
    apply split_colon_no_colon. exact Hu.
  - intros (-> & Hu & Hp).
    rewrite (split_colon_first user pass (split_colon_none user Hu)), Hp.
    reflexivity.
Qed.

Section FurtherLookup.

Variable base64_utf8 : string -> string.

(** X12. With no keys configured and the default keys switched off, the
    lookup finds nothing in any request. *)
Theorem getIdForRequest_nothing_to_search req options :
  searchDefaultTokenKeys options = Js.Bool false ->
  default [] (opt_params options) = [] ->
  default [] (opt_headers options) = [] ->
  default [] (opt_cookies options) = [] ->
  getIdForRequest base64_utf8 req (Some options) = None.
Proof.
  intros Hd Hp Hh Hc.
  unfold getIdForRequest. cbv zeta.
  change (default no_options (Some options)) with options.
  unfold param_names, header_names, cookie_names. cbv zeta.
  rewrite Hd, Hp, Hh, Hc. cbn [is_not_false search_params search_headers].
  unfold search_cookies. destruct (req_signedCookies req); reflexivity.
Qed.

(** X13. Parameters come before headers and cookies, and configured names
    before the default one: a string found under a configured parameter
    name is the result whatever else the request carries, and when the
    configured names give nothing and the defaults are on, a string under
    [access_token] is. *)
Theorem getIdForRequest_params_first req options found :
  let configured := default [] (opt_params options) in
  (search_params req configured = Some found ->
   getIdForRequest base64_utf8 req (Some options) = Some found)
  /\ (search_params req configured = None ->
      searchDefaultTokenKeys options <> Js.Bool false ->
      param_value req "access_token" = Js.Str found ->
      getIdForRequest base64_utf8 req (Some options) = Some found).
Proof.
  intros configured. unfold getIdForRequest. cbv zeta.
  change (default no_options (Some options)) with options.
  unfold param_names. cbv zeta. fold configured. split.
  - intros Hs. destruct (is_not_false (searchDefaultTokenKeys options)).
    + rewrite search_params_app, Hs. reflexivity.
    + rewrite Hs. reflexivity.
  - intros Hs Hd Hv. apply is_not_false_iff in Hd. rewrite Hd.
    rewrite search_params_app, Hs. cbn [search_params]. rewrite Hv.
    reflexivity.
Qed.

(** X14. A header value that is not empty, does not start with [Bearer ]
    (in this very spelling) and does not match the Basic pattern is the
    id as it stands: with nothing under the [access_token] parameter, the
    value of [X-Access-Token] is returned unchanged, and no decoding is
    applied to it. *)
Theorem getIdForRequest_plain_header req value :
  Js.as_string (param_value req "access_token") = None ->
  req_header req "X-Access-Token" = Js.Str value ->
  value <> "" ->
  JsString.starts_with "Bearer " value = false ->
  JsString.test_basic value = false ->
  getIdForRequest base64_utf8 req None = Some value.
Proof.
  intros Hp Hh Hne Hb Hbasic.
  unfold getIdForRequest, param_names, header_names. cbn [default no_options
    opt_params opt_headers searchDefaultTokenKeys is_not_false app
    search_params search_headers].
  rewrite Hp, Hh. cbn [Js.as_string].
  destruct value; [contradiction|]. cbn [Js.truthy_string].
  unfold header_token. rewrite Hb, Hbasic. reflexivity.
Qed.

(** X1. An empty [access_token] parameter hides every other place a token
    could be in: its empty string is the id the lookup returns, headers
    and cookies are not read, and [findForRequest] then asks the store
    nothing and calls back with neither error nor token. *)
Theorem findForRequest_empty_param cx store req :
  param_value req "access_token" = Js.Str "" ->
  getIdForRequest base64_utf8 req None = Some ""
  /\ findForRequest base64_utf8 cx store req None
     = (store, [ResolveCallback None None]).
Proof.
  intros Hv.
  assert (Hid : getIdForRequest base64_utf8 req None = Some "").
  { unfold getIdForRequest, param_names. cbn [default no_options opt_params
      searchDefaultTokenKeys is_not_false app search_params].
    rewrite Hv. reflexivity. }
  split; [exact Hid|]. unfold findForRequest. rewrite Hid. reflexivity.
Qed.

(** X2. A live token travels from the query string to the callback: when
    the request carries the id of a stored token under [access_token],
    the token's positive [ttl] has not run out and it names no principal
    type, [findForRequest] hands that token to the callback and leaves
    the store as it is. *)
Theorem findForRequest_query_token cx store req tokenId token (t q : Q) :
  param_value req "access_token" = Js.Str tokenId ->
  tokenId <> "" ->
  findFailure cx = None ->
  store !! tokenId = Some token ->
  created token = CreatedDate (Js.Num t) ->
  ttl token = Some (Js.Num q) ->
  (0 < q)%Q ->
  ((inject_Z (now cx) - t) / 1000 < q)%Q ->
  principalType token = None ->
  findForRequest base64_utf8 cx store req None
  = (store, [ResolveCallback None (Some token)]).
Proof.
  intros Hv Hne Hfind Hs Hc Ht Hq Hfresh Hp.
  unfold findForRequest.
  assert (Hid : getIdForRequest base64_utf8 req None = Some tokenId).
  { unfold getIdForRequest, param_names. cbn [default no_options opt_params
      searchDefaultTokenKeys is_not_false app search_params].
    rewrite Hv. reflexivity. }
  rewrite Hid. destruct tokenId; [contradiction|]. cbn [Js.truthy_string].
  unfold resolve, findById. rewrite Hfind, Hs.
  rewrite (validate_past_asserts _ _ _ (positive_ttl_asserts _ _ _ _ Hc Ht Hq)).
  rewrite (positive_ttl_isValid _ _ _ _ Hc Ht Hq).
  apply Qltb_lt in Hfresh. rewrite Hfresh.
  unfold principal_ticks, principal_unresolved. rewrite Hp. reflexivity.
Qed.

End FurtherLookup.

Lemma getIdForRequest_nothing_to_search_witness :
  getIdForRequest Base64.decode Sample.bearer (Some Sample.no_keys) = None.
Proof.
  exact (getIdForRequest_nothing_to_search Base64.decode Sample.bearer
           Sample.no_keys eq_refl eq_refl eq_refl eq_refl).
Defined.

Lemma getIdForRequest_params_first_witness :
  getIdForRequest Base64.decode
    (Sample.query "t-fresh" (Sample.headers "authorization" "Bearer dG9rZW4="))
    (Some no_options)
  = Some "t-fresh".
Proof.
  apply (proj2 (getIdForRequest_params_first Base64.decode
                  (Sample.query "t-fresh"
                     (Sample.headers "authorization" "Bearer dG9rZW4="))
                  no_options "t-fresh")).
  - reflexivity.
  - discriminate.
  - reflexivity.
Defined.

Lemma getIdForRequest_plain_header_witness :
  getIdForRequest Base64.decode
    (Sample.request (Sample.headers "X-Access-Token" "bearer t-fresh")) None
  = Some "bearer t-fresh".
Proof.
  apply (getIdForRequest_plain_header Base64.decode
           (Sample.request (Sample.headers "X-Access-Token" "bearer t-fresh"))
           "bearer t-fresh");
    try reflexivity.
  discriminate.
Defined.

Lemma findForRequest_empty_param_witness :
  getIdForRequest Base64.decode
    (Sample.query "" (Sample.headers "authorization" "t-fresh")) None = Some ""
  /\ findForRequest Base64.decode Sample.NoUser Sample.store
       (Sample.query "" (Sample.headers "authorization" "t-fresh")) None
     = (Sample.store, [ResolveCallback None None]).
Proof.
  exact (findForRequest_empty_param Base64.decode Sample.NoUser Sample.store
           (Sample.query "" (Sample.headers "authorization" "t-fresh"))
           eq_refl).
Defined.

Lemma findForRequest_query_token_witness :
  findForRequest Base64.decode Sample.NoUser Sample.store
    (Sample.query "t-fresh" (fun _ => Js.Undefined)) None
  = (Sample.store, [ResolveCallback None (Some Sample.fresh)]).
Proof.
  apply (findForRequest_query_token Base64.decode Sample.NoUser Sample.store
           (Sample.query "t-fresh" (fun _ => Js.Undefined))
           "t-fresh" Sample.fresh 1000 10);
    try reflexivity.
  discriminate.
Defined.

(** ** The [before save] hook and the id generator *)

(** X15. The hook settles after one run: with a generator that never
    produces the empty string, a context the hook has passed without
    error is passed again unchanged, and no second id is drawn. *)
Theorem before_save_idempotent src ctx :
  (forall len newId, uid src len = inr newId -> newId <> "") ->
  (before_save src ctx).2 = Next None ->
  before_save src (before_save src ctx).1 = ((before_save src ctx).1, Next None).
Proof.
  intros Hnonempty. unfold before_save at 1 3 4, createAccessTokenId.
  destruct (instance ctx) as [inst|] eqn:Hi; cbn [fst snd].
  2:{ intros _. unfold before_save. rewrite Hi. reflexivity. }
  destruct (id_truthy (id inst)) eqn:Ht; cbn [fst snd].
  { intros _. unfold before_save. rewrite Hi, Ht. reflexivity. }
  destruct (uid src (tokenIdLength src)) as [e|newId] eqn:Hu; cbn [fst snd];
    [discriminate|].
  intros _. unfold before_save. cbn [instance set_id id id_truthy].
  pose proof (Hnonempty _ _ Hu) as Hne.
  destruct newId; [contradiction|]. reflexivity.
Qed.

Lemma before_save_idempotent_witness :
  before_save Sample.source
    (before_save Sample.source
       {| instance := Some (Sample.with_id None); data := None |}).1
  = ((before_save Sample.source
        {| instance := Some (Sample.with_id None); data := None |}).1,
     Next None).
Proof.
  apply (before_save_idempotent Sample.source
           {| instance := Some (Sample.with_id None); data := None |}).
  - intros len newId. cbn. destruct (len =? 64)%nat; intros [= <-]; discriminate.
  - reflexivity.
Defined.

(** X16. The id a new token gets has the configured length, and 64
    characters when no length, or the length 0, is configured: this holds
    for every instance without an id that passes the hook, provided the
    generator gives as many characters as it is asked for. *)
Theorem before_save_id_length src ctx inst :
  (forall len newId, uid src len = inr newId -> String.length newId = len) ->
  instance ctx = Some inst ->
  id_truthy (id inst) = false ->
  (before_save src ctx).2 = Next None ->
  exists newId,
    instance (before_save src ctx).1 = Some (set_id inst newId)
    /\ String.length newId = tokenIdLength src
    /\ (0 < tokenIdLength src)%nat
    /\ (forall n, accessTokenIdLength src = Some (S n) ->
        String.length newId = S n)
    /\ (accessTokenIdLength src = None \/ accessTokenIdLength src = Some 0%nat ->
        String.length newId = 64%nat).
Proof.
  intros Hlen Hi Ht. unfold before_save, createAccessTokenId.
  rewrite Hi, Ht.
  destruct (uid src (tokenIdLength src)) as [e|newId] eqn:Hu; cbn [fst snd];
    [discriminate|].
  intros _. exists newId. split; [reflexivity|].
  rewrite (Hlen _ _ Hu). unfold tokenIdLength, DEFAULT_TOKEN_LEN.
  destruct (accessTokenIdLength src) as [[|n]|]; repeat split; try lia.
  - intros n0 [=]. 
  - intros n0 [= ->]. reflexivity.
  - intros [H|H]; discriminate.
  - intros n0 [=].
Qed.

Lemma letters_length (len : nat) :
  String.length (string_of_list_ascii (repeat "x"%char len)) = len.
Proof. induction len as [|len IH]; [reflexivity|]. cbn. rewrite IH. reflexivity. Qed.

Lemma before_save_id_length_witness :
  exists newId,
    instance (before_save Sample.letters
                {| instance := Some (Sample.with_id (Some "")); data := None |}).1
    = Some (set_id (Sample.with_id (Some "")) newId)
    /\ String.length newId = tokenIdLength Sample.letters
    /\ (0 < tokenIdLength Sample.letters)%nat
    /\ (forall n, accessTokenIdLength Sample.letters = Some (S n) ->
        String.length newId = S n)
    /\ (accessTokenIdLength Sample.letters = None
        \/ accessTokenIdLength Sample.letters = Some 0%nat ->
        String.length newId = 64%nat).
Proof.
  apply (before_save_id_length Sample.letters
           {| instance := Some (Sample.with_id (Some "")); data := None |}
           (Sample.with_id (Some ""))).
  - intros len newId [= <-]. apply letters_length.
  - reflexivity.
  - reflexivity.
  - reflexivity.
Defined.
